(** * Leave request lifecycle: the rule engine of LeaveRequestsController

    A shallow embedding of the ASP.NET controller
    [LeaveRequestBackend.Controllers.LeaveRequestsController] and of the
    model classes it works on, followed by the properties of the request
    lifecycle (create, set status, cancel, permanent delete, list). *)

From Stdlib Require Import ZArith QArith String Ascii List Permutation Sorted Lia.
From stdpp Require Import gmap sorting.
Import ListNotations.

Local Open Scope string_scope.
Local Open Scope Z_scope.

(** ** System.DateTime and System.TimeSpan

    A [DateTime] is a count of 100ns ticks; comparison operators compare the
    ticks and the difference of two instants is a [TimeSpan], again a count
    of ticks.  A calendar date (no time of day) is a whole number of days. *)

Definition DateTime := Z.
Definition TimeSpan := Z.

Definition TicksPerDay : positive := 864000000000%positive.

(** [new DateTime(...)] of the [n]-th day at midnight, and [AddDays]. *)
Definition Date (n : Z) : DateTime := n * Z.pos TicksPerDay.
Definition AddDays (d : DateTime) (n : Z) : DateTime := d + n * Z.pos TicksPerDay.

(** [TimeSpan.TotalDays] is [(double)ticks / TicksPerDay].  The embedding
    keeps the exact quotient: the value is only ever compared with 15
    (as it is, or after adding one), and on these tests the rounded and
    the exact quotient agree: 14 and 15 days are exact doubles, rounding is
    monotone, and one tick more than a whole number of days below 16 is
    more than half a unit in the last place, so it rounds to the next
    double above. *)
Definition TotalDays (ts : TimeSpan) : Q := Qmake ts TicksPerDay.

(** The test [a > b] on day counts. *)
Definition Qgtb (a b : Q) : bool := negb (Qle_bool a b).

(** ** Models/Employee.cs *)

Module Role.
(** [public enum Role { Employee, Manager }] *)
Inductive t := Employee | Manager.

#[global] Instance eq_dec : EqDecision t.
Proof. solve_decision. Defined.
End Role.

Module Employee.
Record t := mk {
  Id : Z;
  Name : string;
  Email : string;
  Role : Role.t
}.
End Employee.

(** ** Models/LeaveRequest.cs *)

Module LeaveStatus.
(** [public enum LeaveStatus { Pending, Approved, Rejected }].  A value of
    a C# enum is a value of its underlying type [int]; the three members
    name 0, 1 and 2, and a cast or a parse can produce any other [int]. *)
Definition t := Z.
Definition Pending : t := 0.
Definition Approved : t := 1.
Definition Rejected : t := 2.

(** The names and values reflection reports for the type, by value. *)
Definition Names : list (string * Z) :=
  [("Pending", Pending); ("Approved", Approved); ("Rejected", Rejected)].
End LeaveStatus.

Module LeaveRequest.
(** The navigation property [Employee] is the row of [Employees] that
    [EmployeeId] refers to; it carries no data of its own and is left to
    the foreign key. *)
Record t := mk {
  Id : Z;
  EmployeeId : Z;
  StartDate : DateTime;
  EndDate : DateTime;
  Status : LeaveStatus.t;
  Reason : string
}.

(** [request.Status = status] *)
Definition set_Status (status : LeaveStatus.t) (r : t) : t :=
  mk (Id r) (EmployeeId r) (StartDate r) (EndDate r) status (Reason r).

(** The key assigned when the row is inserted. *)
Definition set_Id (id : Z) (r : t) : t :=
  mk id (EmployeeId r) (StartDate r) (EndDate r) (Status r) (Reason r).
End LeaveRequest.

(** ** DTOs/CreateLeaveRequestDto.cs *)

Module CreateLeaveRequestDto.
(** Modelled from the spec: the class CreateLeaveRequestDto (its file is
    not part of the sources at hand).  The create operation takes
    [employeeId, startDate, endDate, reason]; the controller reads
    exactly these four properties and stores the two dates in [DateTime]
    properties. *)
Record t := mk {
  EmployeeId : Z;
  StartDate : DateTime;
  EndDate : DateTime;
  Reason : string
}.
End CreateLeaveRequestDto.

(** ** Data/AppDbContext.cs

    Each [DbSet] is a table indexed by its integer primary key.
    [FindAsync] is the lookup, [Remove] the deletion of the key and [Add]
    followed by [SaveChangesAsync] inserts the row under the next value of
    the table's key sequence (keys are generated by the database and are
    not reused). *)

Record AppDbContext := mkContext {
  Employees : gmap Z Employee.t;
  LeaveRequests : gmap Z LeaveRequest.t;
  LeaveRequestsSeq : Z
}.

Definition with_LeaveRequests (t : gmap Z LeaveRequest.t) (c : AppDbContext) : AppDbContext :=
  mkContext (Employees c) t (LeaveRequestsSeq c).

(** [_context.LeaveRequests.Add(request); await _context.SaveChangesAsync()]:
    the stored entity, with its generated key, and the new context. *)
Definition Add (request : LeaveRequest.t) (c : AppDbContext) : LeaveRequest.t * AppDbContext :=
  let id := LeaveRequestsSeq c + 1 in
  let stored := LeaveRequest.set_Id id request in
  (stored, mkContext (Employees c) (<[id := stored]> (LeaveRequests c)) id).

(** [_context.LeaveRequests.Remove(request); await _context.SaveChangesAsync()]
    for the entity found under key [id]. *)
Definition Remove (id : Z) (c : AppDbContext) : AppDbContext :=
  with_LeaveRequests (delete id (LeaveRequests c)) c.

(** The rows of the table, in the order the table enumerates them. *)
Definition rows (t : gmap Z LeaveRequest.t) : list LeaveRequest.t :=
  (map_to_list t).*2.

(** [AnyAsync(predicate)] *)
Definition AnyAsync (p : LeaveRequest.t → bool) (t : gmap Z LeaveRequest.t) : bool :=
  existsb p (rows t).

(** [Where(predicate)] *)
Definition Where (p : LeaveRequest.t → bool) (l : list LeaveRequest.t) : list LeaveRequest.t :=
  List.filter p l.

(** [OrderByDescending(lr => lr.StartDate)]: the later start date first. *)
Definition StartDate_desc (a b : LeaveRequest.t) : Prop :=
  LeaveRequest.StartDate b ≤ LeaveRequest.StartDate a.

#[global] Instance StartDate_desc_dec a b : Decision (StartDate_desc a b).
Proof. unfold StartDate_desc. apply _. Defined.

Definition OrderByDescending_StartDate (l : list LeaveRequest.t) : list LeaveRequest.t :=
  merge_sort StartDate_desc l.

(** ** System.Enum.TryParse

    [Enum.TryParse<TEnum>(value, ignoreCase, out result)] of the framework,
    for an enum over [int]: leading white space is skipped; a text that
    starts with a digit or a sign is read as a number of the underlying
    type and, when it is one, is the result whether or not a member has
    that value; any other text is a comma-separated list of member names
    whose values are or-ed together.  Texts are taken over 8-bit
    characters. *)

Module Enum.

Definition code (c : ascii) : N := N_of_ascii c.

(** [char.IsWhiteSpace] on Latin-1. *)
Definition IsWhiteSpace (c : ascii) : bool :=
  let n := code c in
  ((9 <=? n) && (n <=? 13) || (n =? 32) || (n =? 133) || (n =? 160))%N.

(** The white space of number parsing: U+0009 to U+000D and U+0020. *)
Definition IsWhite (c : ascii) : bool :=
  let n := code c in ((9 <=? n) && (n <=? 13) || (n =? 32))%N.

Definition IsAsciiDigit (c : ascii) : bool :=
  let n := code c in ((48 <=? n) && (n <=? 57))%N.

Fixpoint TrimStart (s : list ascii) : list ascii :=
  match s with
  | c :: s' => if IsWhiteSpace c then TrimStart s' else s
  | [] => []
  end.

Definition TrimEnd (s : list ascii) : list ascii := rev (TrimStart (rev s)).

Definition Trim (s : list ascii) : list ascii := TrimEnd (TrimStart s).

(** Ordinal upper-casing of an ASCII letter. *)
Definition ToUpperOrdinal (c : ascii) : ascii :=
  let n := code c in
  if ((97 <=? n) && (n <=? 122))%N then ascii_of_N (n - 32) else c.

Fixpoint EqualsOrdinalIgnoreCase (a b : list ascii) : bool :=
  match a, b with
  | [], [] => true
  | x :: a', y :: b' =>
      if Ascii.eqb (ToUpperOrdinal x) (ToUpperOrdinal y)
      then EqualsOrdinalIgnoreCase a' b' else false
  | _, _ => false
  end.

Fixpoint EqualsOrdinal (a b : list ascii) : bool :=
  match a, b with
  | [], [] => true
  | x :: a', y :: b' => if Ascii.eqb x y then EqualsOrdinal a' b' else false
  | _, _ => false
  end.

(** *** Number.TryParseBinaryIntegerStyle, styles AllowLeadingSign and
    AllowTrailingWhite, for Int32 *)

Inductive ParsingStatus := OK (v : Z) | Failed | Overflow.

(** The digits at the front of [s], read in base ten onto [acc], with the
    rest of the text. *)
Fixpoint digits (acc : Z) (s : list ascii) : Z * list ascii :=
  match s with
  | c :: s' =>
      if IsAsciiDigit c then digits (10 * acc + (Z.of_N (code c) - 48)) s'
      else (acc, s)
  | [] => (acc, [])
  end.

Fixpoint SkipWhite (s : list ascii) : list ascii :=
  match s with
  | c :: s' => if IsWhite c then SkipWhite s' else s
  | [] => []
  end.

(** Only null characters are left. *)
Definition TrailingZeros (s : list ascii) : bool :=
  forallb (fun c => (code c =? 0)%N) s.

Definition Int32_MinValue : Z := - 2 ^ 31.
Definition Int32_MaxValue : Z := 2 ^ 31 - 1.

Definition TryParseInt32 (s : list ascii) : ParsingStatus :=
  let '(negative, s1) :=
    match s with
    | c :: s' =>
        if Ascii.eqb c "-" then (true, s')
        else if Ascii.eqb c "+" then (false, s')
        else (false, s)
    | [] => (false, [])
    end in
  match s1 with
  | c :: _ =>
      if IsAsciiDigit c then
        let '(n, rest) := digits 0 s1 in
        if TrailingZeros (SkipWhite rest) then
          let v := if negative then - n else n in
          if (Int32_MinValue <=? v) && (v <=? Int32_MaxValue) then OK v
          else Overflow
        else Failed
      else Failed
  | [] => Failed
  end.

(** *** Parsing by name *)

(** The comma-separated pieces of a text. *)
Fixpoint Split (s : list ascii) : list (list ascii) :=
  match s with
  | [] => [[]]
  | c :: s' =>
      if Ascii.eqb c "," then [] :: Split s'
      else match Split s' with
           | h :: t => (c :: h) :: t
           | [] => [[c]]
           end
  end.

(** The value of the first member whose name is [subvalue]. *)
Fixpoint FindName (names : list (string * Z)) (ignoreCase : bool)
    (subvalue : list ascii) : option Z :=
  match names with
  | [] => None
  | (name, v) :: names' =>
      let n := list_ascii_of_string name in
      if (if ignoreCase then EqualsOrdinalIgnoreCase subvalue n
          else EqualsOrdinal subvalue n)
      then Some v else FindName names' ignoreCase subvalue
  end.

(** Each piece, trimmed, has to be the name of a member (so an empty piece,
    as after a trailing separator, fails); the values are or-ed. *)
Fixpoint OrNames (names : list (string * Z)) (ignoreCase : bool)
    (subvalues : list (list ascii)) (localResult : Z) : option Z :=
  match subvalues with
  | [] => Some localResult
  | sub :: rest =>
      match FindName names ignoreCase (Trim sub) with
      | Some v => OrNames names ignoreCase rest (Z.lor localResult v)
      | None => None
      end
  end.

Definition TryParseByName (names : list (string * Z)) (ignoreCase : bool)
    (value : list ascii) : option Z :=
  OrNames names ignoreCase (Split value) 0.

Definition TryParse (names : list (string * Z)) (value : string)
    (ignoreCase : bool) : option Z :=
  match TrimStart (list_ascii_of_string value) with
  | [] => None
  | (c :: _) as v =>
      if negb (IsAsciiDigit c) && negb (Ascii.eqb c "-") && negb (Ascii.eqb c "+")
      then TryParseByName names ignoreCase v
      else
        match TryParseInt32 v with
        | OK n => Some n
        | Failed => TryParseByName names ignoreCase v
        | Overflow => None
        end
  end.

End Enum.

(** ** Controllers/LeaveRequestsController.cs *)

(** The results the actions return: a value (status 200) or one of the
    result objects of [ControllerBase]. *)
Inductive IActionResult :=
| Ok (value : list LeaveRequest.t)
| CreatedAtAction (value : LeaveRequest.t)
| NoContent
| BadRequest (error : string)
| Unauthorized
| NotFound (value : option string).

(** The failures of the lifecycle, by the names of the error taxonomy. *)
Definition EmployeeNotFound : IActionResult := NotFound (Some "Employee not found").
Definition InvalidRange : IActionResult := BadRequest "End date must be after start date".
Definition PastDate : IActionResult := BadRequest "Cannot create requests for past dates".
Definition OverlapConflict : IActionResult :=
  BadRequest "Overlapping approved leave exists for this period".
Definition InvalidStatus : IActionResult :=
  BadRequest "Invalid status. Must be 'Approved' or 'Rejected'.".
Definition InvalidState : IActionResult := BadRequest "Only pending requests can be canceled".

(** [ActionResult<T>]: the value itself (status 200) or a result object. *)
Inductive ActionResult (T : Type) :=
| Value (value : T)
| Result (result : IActionResult).

Arguments Value {T} value.
Arguments Result {T} result.

Module LeaveRequestsController.

(** GET /api/leaverequests?employeeId=1 *)
Definition GetLeaveRequests (employeeId : option Z) (c : AppDbContext) : IActionResult :=
  match employeeId with
  | None => Ok (OrderByDescending_StartDate (rows (LeaveRequests c)))
  | Some id =>
      match Employees c !! id with
      | None => NotFound (Some "Employee not found")
      | Some employee =>
          if decide (Employee.Role employee = Role.Manager)
          then Ok (OrderByDescending_StartDate (rows (LeaveRequests c)))
          else Ok (OrderByDescending_StartDate
                     (Where (fun lr => LeaveRequest.EmployeeId lr =? id)
                        (rows (LeaveRequests c))))
      end
  end.

(** GET /api/leaverequests/{id}: the first row whose [Id] is [id]. *)
Definition GetLeaveRequest (id : Z) (c : AppDbContext) : ActionResult LeaveRequest.t :=
  match List.find (fun lr => LeaveRequest.Id lr =? id) (rows (LeaveRequests c)) with
  | None => Result (NotFound None)
  | Some request => Value request
  end.

(** The predicate of the overlap query. *)
Definition overlaps (dto : CreateLeaveRequestDto.t) (lr : LeaveRequest.t) : bool :=
  (LeaveRequest.EmployeeId lr =? CreateLeaveRequestDto.EmployeeId dto)
  && (LeaveRequest.Status lr =? LeaveStatus.Approved)
  && (LeaveRequest.StartDate lr <=? CreateLeaveRequestDto.EndDate dto)
  && (LeaveRequest.EndDate lr >=? CreateLeaveRequestDto.StartDate dto).

(** POST /api/leaverequests; [Today] is [DateTime.Today] at the call. *)
Definition CreateLeaveRequest (Today : DateTime) (dto : CreateLeaveRequestDto.t)
    (c : AppDbContext) : IActionResult * AppDbContext :=
  match Employees c !! CreateLeaveRequestDto.EmployeeId dto with
  | None => (NotFound (Some "Employee not found"), c)
  | Some employee =>
      if CreateLeaveRequestDto.StartDate dto >=? CreateLeaveRequestDto.EndDate dto
      then (BadRequest "End date must be after start date", c)
      else if CreateLeaveRequestDto.StartDate dto <? Today
      then (BadRequest "Cannot create requests for past dates", c)
      else
        let duration :=
          (TotalDays (CreateLeaveRequestDto.EndDate dto
                      - CreateLeaveRequestDto.StartDate dto)%Z + 1)%Q in
        let overlap := AnyAsync (overlaps dto) (LeaveRequests c) in
        if overlap
        then (BadRequest "Overlapping approved leave exists for this period", c)
        else
          let status :=
            if Qgtb duration 15 then LeaveStatus.Rejected else LeaveStatus.Pending in
          let request :=
            LeaveRequest.mk 0
              (CreateLeaveRequestDto.EmployeeId dto)
              (CreateLeaveRequestDto.StartDate dto)
              (CreateLeaveRequestDto.EndDate dto)
              status
              (CreateLeaveRequestDto.Reason dto) in
          let '(request, c') := Add request c in
          (CreatedAtAction request, c')
  end.

(** PUT /api/leaverequests/{id}?managerId=2 *)
Definition UpdateLeaveStatus (id managerId : Z) (statusString : string)
    (c : AppDbContext) : IActionResult * AppDbContext :=
  match Employees c !! managerId with
  | None => (Unauthorized, c)
  | Some manager =>
      if decide (Employee.Role manager ≠ Role.Manager) then (Unauthorized, c)
      else
        match LeaveRequests c !! id with
        | None => (NotFound None, c)
        | Some request =>
            match Enum.TryParse LeaveStatus.Names statusString true with
            | None => (BadRequest "Invalid status. Must be 'Approved' or 'Rejected'.", c)
            | Some status =>
                let duration :=
                  TotalDays (LeaveRequest.EndDate request
                             - LeaveRequest.StartDate request) in
                let request :=
                  if Qgtb duration 15 && (status =? LeaveStatus.Approved)
                  then LeaveRequest.set_Status status request
                  else LeaveRequest.set_Status status request in
                (NoContent, with_LeaveRequests (<[id := request]> (LeaveRequests c)) c)
            end
        end
  end.

(** DELETE /api/leaverequests/{id}?employeeId=1 *)
Definition CancelLeaveRequest (id employeeId : Z) (c : AppDbContext)
    : IActionResult * AppDbContext :=
  match LeaveRequests c !! id with
  | None => (Unauthorized, c)
  | Some request =>
      if decide (LeaveRequest.EmployeeId request ≠ employeeId) then (Unauthorized, c)
      else if decide (LeaveRequest.Status request ≠ LeaveStatus.Pending)
      then (BadRequest "Only pending requests can be canceled", c)
      else (NoContent, Remove id c)
  end.

(** DELETE /api/leaverequests/{id}/permanent?managerId=2 *)
Definition PermanentlyDeleteRequest (id managerId : Z) (c : AppDbContext)
    : IActionResult * AppDbContext :=
  match Employees c !! managerId with
  | None => (Unauthorized, c)
  | Some manager =>
      if decide (Employee.Role manager ≠ Role.Manager) then (Unauthorized, c)
      else
        match LeaveRequests c !! id with
        | None => (NotFound None, c)
        | Some request => (NoContent, Remove id c)
        end
  end.

End LeaveRequestsController.

Import LeaveRequestsController.

(** ** The stores the operations can produce *)

(** A database before any request was made: [SeedData.Initialize] fills
    [Employees] only. *)
Definition initial (employees : gmap Z Employee.t) : AppDbContext :=
  mkContext employees ∅ 0.

(** One call of a mutating action, whatever its arguments and its result. *)
Inductive step (c : AppDbContext) : AppDbContext → Prop :=
| step_create Today dto : step c (CreateLeaveRequest Today dto c).2
| step_setStatus id managerId statusString :
    step c (UpdateLeaveStatus id managerId statusString c).2
| step_cancel id employeeId : step c (CancelLeaveRequest id employeeId c).2
| step_delete id managerId : step c (PermanentlyDeleteRequest id managerId c).2.

Definition reachable (c : AppDbContext) : Prop :=
  ∃ employees, rtc step (initial employees) c.

(** The duration of a range of dates in days, both end days included. *)
Definition duration (startDate endDate : DateTime) : Q :=
  (TotalDays (endDate - startDate)%Z + 1)%Q.

(** The request [CreateLeaveRequest] stores for [dto] in [c]. *)
Definition created (dto : CreateLeaveRequestDto.t) (c : AppDbContext) : LeaveRequest.t :=
  LeaveRequest.mk (LeaveRequestsSeq c + 1)
    (CreateLeaveRequestDto.EmployeeId dto)
    (CreateLeaveRequestDto.StartDate dto)
    (CreateLeaveRequestDto.EndDate dto)
    (if Qgtb (duration (CreateLeaveRequestDto.StartDate dto)
                (CreateLeaveRequestDto.EndDate dto)) 15
     then LeaveStatus.Rejected else LeaveStatus.Pending)
    (CreateLeaveRequestDto.Reason dto).

(** Every stored request starts at or before its end. *)
Definition dates_in_order (c : AppDbContext) : Prop :=
  ∀ id r, LeaveRequests c !! id = Some r →
    LeaveRequest.StartDate r ≤ LeaveRequest.EndDate r.

(** ** A sample database *)

Definition alex : Employee.t := Employee.mk 1 "Alex Employee" "alex@company.com" Role.Employee.
Definition morgan : Employee.t := Employee.mk 2 "Morgan Manager" "morgan@company.com" Role.Manager.
Definition seeded : AppDbContext := initial (<[1 := alex]> (<[2 := morgan]> ∅)).

(** Requests of employee 1 from day 100: one day, fifteen days (day 100 to
    day 114) and sixteen days (day 100 to day 115). *)
Definition single_day : CreateLeaveRequestDto.t :=
  CreateLeaveRequestDto.mk 1 (Date 100) (Date 100) "a day off".
Definition fortnight : CreateLeaveRequestDto.t :=
  CreateLeaveRequestDto.mk 1 (Date 100) (AddDays (Date 100) 14) "two weeks away".
Definition long_leave : CreateLeaveRequestDto.t :=
  CreateLeaveRequestDto.mk 1 (Date 100) (AddDays (Date 100) 15) "a long journey".

Definition overlapping : CreateLeaveRequestDto.t :=
  CreateLeaveRequestDto.mk 1 (Date 110) (Date 120) "ten more days".

(** The seeded database after [long_leave] was filed (request 1, rejected
    on creation), and after the manager approved it. *)
Definition with_long : AppDbContext := (CreateLeaveRequest (Date 100) long_leave seeded).2.
Definition with_long_approved : AppDbContext := (UpdateLeaveStatus 1 2 "Approved" with_long).2.

(** The same with a second request of employee 1, filed for days 110 to 120
    while the first was still rejected (request 2, pending), and after the
    manager approved the first. *)
Definition with_two : AppDbContext := (CreateLeaveRequest (Date 100) overlapping with_long).2.
Definition with_two_one_approved : AppDbContext := (UpdateLeaveStatus 1 2 "Approved" with_two).2.

(** A list in descending order of start date: of two entries, the later
    one in the list does not start after the earlier one. *)
Definition descending_by_StartDate (l : list LeaveRequest.t) : Prop :=
  ∀ (i j : nat) a b, (i < j)%nat → l !! i = Some a → l !! j = Some b →
    LeaveRequest.StartDate b ≤ LeaveRequest.StartDate a.

(** ** SeedData.cs *)

Module SeedData.




End SeedData.

(** ** src/App.tsx: the calls the page sends *)

Module App.

Inductive Role := employee | manager.

(** [useState(1)], Alex Employee (first created), and [useState(2)], Morgan
    Manager (second created). *)
Definition employeeId : Z := 1.
Definition managerId : Z := 2.




(** [cancel]: DELETE /LeaveRequests/{id}?employeeId=... *)
Definition cancel (id : Z) (c : AppDbContext) : IActionResult * AppDbContext :=
  CancelLeaveRequest id employeeId c.

(** [getStatusString] of the page with login: the name shown for a numeric
    status. *)
Definition getStatusString (status : Z) : string :=
  match status with
  | 0 => "Pending"
  | 1 => "Approved"
  | 2 => "Rejected"
  | _ => "Pending"
  end.

End App.

(** ** components/CreateRequestForm.tsx *)

Module CreateRequestForm.

(** [type CreateLeaveRequest] *)
Record CreateLeaveRequest := mkForm {
  employeeId : Z;
  startDate : string;
  endDate : string;
  reason : string
}.






Section validateForm.

(** The time value of [new Date(text)], [None] for an invalid date (NaN),
    and the time value of today's local midnight
    ([new Date()] after [setHours(0, 0, 0, 0)]). *)
Variable DateValue : string → option Z.
Variable today : Z.





End validateForm.

End CreateRequestForm.

(** The text with its ASCII letters in upper case. *)
Definition upper (s : string) : list ascii :=
  List.map Enum.ToUpperOrdinal (list_ascii_of_string s).



(** ** Invariants of the stored requests *)

(** Every request is stored under its own [Id], and the ids in use are
    among those the key sequence has given out. *)
Definition keyed_by_Id (c : AppDbContext) : Prop :=
  0 ≤ LeaveRequestsSeq c
  ∧ ∀ id r, LeaveRequests c !! id = Some r →
      LeaveRequest.Id r = id ∧ 0 < id ≤ LeaveRequestsSeq c.

(** Every request belongs to a stored employee. *)
Definition owners_known (c : AppDbContext) : Prop :=
  ∀ id r, LeaveRequests c !! id = Some r →
    is_Some (Employees c !! LeaveRequest.EmployeeId r).

(** Every stored status is a value of [int]. *)
Definition statuses_Int32 (c : AppDbContext) : Prop :=
  ∀ id r, LeaveRequests c !! id = Some r →
    Enum.Int32_MinValue ≤ LeaveRequest.Status r ≤ Enum.Int32_MaxValue.

(** What one call can do to the database: nothing, store the request it
    created under the next key, rewrite the status of one stored request,
    or remove one stored request. *)
Inductive effect (c : AppDbContext) : AppDbContext → Prop :=
| effect_none : effect c c
| effect_created dto :
    is_Some (Employees c !! CreateLeaveRequestDto.EmployeeId dto) →
    CreateLeaveRequestDto.StartDate dto < CreateLeaveRequestDto.EndDate dto →
    effect c (mkContext (Employees c)
                (<[LeaveRequestsSeq c + 1 := created dto c]> (LeaveRequests c))
                (LeaveRequestsSeq c + 1))
| effect_status id request status :
    LeaveRequests c !! id = Some request →
    Enum.Int32_MinValue ≤ status ≤ Enum.Int32_MaxValue →
    effect c (with_LeaveRequests
                (<[id := LeaveRequest.set_Status status request]> (LeaveRequests c)) c)
| effect_removed id request :
    LeaveRequests c !! id = Some request →
    effect c (Remove id c).

(** An id the key sequence has passed and that is not in use. *)
Definition retired (id : Z) (c : AppDbContext) : Prop :=
  id ≤ LeaveRequestsSeq c ∧ LeaveRequests c !! id = None.


(** ** Properties *)

Example TryParse_Approved : Enum.TryParse LeaveStatus.Names "Approved" true = Some 1.
Proof. reflexivity. Qed.
Example TryParse_rejected : Enum.TryParse LeaveStatus.Names " rejected " true = Some 2.
Proof. reflexivity. Qed.
Example TryParse_pending : Enum.TryParse LeaveStatus.Names "Pending" true = Some 0.
Proof. reflexivity. Qed.
Example TryParse_seven : Enum.TryParse LeaveStatus.Names "7" true = Some 7.
Proof. reflexivity. Qed.
Example TryParse_list : Enum.TryParse LeaveStatus.Names "Approved, Rejected" true = Some 3.
Proof. reflexivity. Qed.
Example TryParse_trailing : Enum.TryParse LeaveStatus.Names "Approved," true = None.
Proof. reflexivity. Qed.
Example TryParse_big : Enum.TryParse LeaveStatus.Names "99999999999" true = None.
Proof. reflexivity. Qed.
Example TryParse_yes : Enum.TryParse LeaveStatus.Names "yes" true = None.
Proof. reflexivity. Qed.
Example TryParse_empty : Enum.TryParse LeaveStatus.Names "" true = None.
Proof. reflexivity. Qed.

(** *** The tables *)

Lemma elem_of_rows (t : gmap Z LeaveRequest.t) (r : LeaveRequest.t) :
  r ∈ rows t ↔ ∃ id, t !! id = Some r.
Proof.
  unfold rows. rewrite list_elem_of_fmap. split.
  - intros [[id r'] [-> Hin]]. exists id. by apply elem_of_map_to_list.
  - intros [id Hid]. exists (id, r). split; [done|]. by apply elem_of_map_to_list.
Qed.

Lemma AnyAsync_true (p : LeaveRequest.t → bool) (t : gmap Z LeaveRequest.t) :
  AnyAsync p t = true ↔ ∃ id r, t !! id = Some r ∧ p r = true.
Proof.
  unfold AnyAsync. rewrite existsb_exists. split.
  - intros [r [Hin Hp]]. apply list_elem_of_In, elem_of_rows in Hin as [id Hid]. eauto.
  - intros (id & r & Hid & Hp). exists r. split; [|done].
    apply list_elem_of_In, elem_of_rows. eauto.
Qed.

Lemma AnyAsync_false (p : LeaveRequest.t → bool) (t : gmap Z LeaveRequest.t) :
  AnyAsync p t = false ↔ ∀ id r, t !! id = Some r → p r = false.
Proof.
  rewrite <- not_true_iff_false, AnyAsync_true. split.
  - intros Hno id r Hid. apply not_true_iff_false. intros Hp. apply Hno. eauto.
  - intros Hall (id & r & Hid & Hp). rewrite (Hall _ _ Hid) in Hp. discriminate.
Qed.

Lemma overlaps_true (dto : CreateLeaveRequestDto.t) (lr : LeaveRequest.t) :
  overlaps dto lr = true ↔
    LeaveRequest.EmployeeId lr = CreateLeaveRequestDto.EmployeeId dto
    ∧ LeaveRequest.Status lr = LeaveStatus.Approved
    ∧ LeaveRequest.StartDate lr ≤ CreateLeaveRequestDto.EndDate dto
    ∧ LeaveRequest.EndDate lr >= CreateLeaveRequestDto.StartDate dto.
Proof.
  unfold overlaps. rewrite !andb_true_iff, !Z.eqb_eq, Z.leb_le, Z.geb_le. lia.
Qed.

(** *** Day counts *)

Lemma Qgtb_true (a b : Q) : Qgtb a b = true ↔ (b < a)%Q.
Proof.
  unfold Qgtb. rewrite negb_true_iff, <- not_true_iff_false, Qle_bool_iff. split.
  - apply Qnot_le_lt.
  - apply Qlt_not_le.
Qed.

Lemma Qgtb_false (a b : Q) : Qgtb a b = false ↔ ¬ (b < a)%Q.
Proof. rewrite <- Qgtb_true. symmetry. apply not_true_iff_false. Qed.

Lemma duration_lt (n : Z) (startDate endDate : DateTime) :
  (inject_Z n < duration startDate endDate)%Q ↔
    (n - 1) * Z.pos TicksPerDay < endDate - startDate.
Proof.
  unfold duration, TotalDays, Qlt, Qplus. simpl. unfold TicksPerDay. lia.
Qed.

Lemma duration_Date (n m : Z) :
  (duration (Date n) (Date m) == inject_Z (m - n + 1))%Q.
Proof.
  unfold duration, Date, TotalDays, Qeq, Qplus. simpl. unfold TicksPerDay. lia.
Qed.

Lemma duration_AddDays (startDate : DateTime) (n : Z) :
  (duration startDate (AddDays startDate n) == inject_Z (n + 1))%Q.
Proof.
  unfold duration, AddDays, TotalDays, Qeq, Qplus. simpl. unfold TicksPerDay. lia.
Qed.

(** *** Creation *)

Ltac create_cases :=
  unfold CreateLeaveRequest;
  match goal with
  | |- context [Employees ?c !! ?k] =>
      destruct (Employees c !! k) as [?employee|] eqn:?Hemployee
  end;
  [ rewrite Z.geb_leb;
    match goal with
    | |- context [?a <=? ?b] => destruct (Z.leb_spec a b)
    end;
    [ | match goal with
        | |- context [?a <? ?b] => destruct (Z.ltb_spec a b)
        end;
        [ | match goal with
            | |- context [AnyAsync ?p ?t] => destruct (AnyAsync p t) eqn:?Hoverlap
            end ] ]
  | ]; cbn [fst snd Add].

Lemma CreateLeaveRequest_created Today dto c :
  is_Some (Employees c !! CreateLeaveRequestDto.EmployeeId dto) →
  CreateLeaveRequestDto.StartDate dto < CreateLeaveRequestDto.EndDate dto →
  Today ≤ CreateLeaveRequestDto.StartDate dto →
  AnyAsync (overlaps dto) (LeaveRequests c) = false →
  CreateLeaveRequest Today dto c =
    (CreatedAtAction (created dto c),
     mkContext (Employees c)
       (<[LeaveRequestsSeq c + 1 := created dto c]> (LeaveRequests c))
       (LeaveRequestsSeq c + 1)).
Proof.
  intros [e He] Hrange Hpast Hno. create_cases; try lia; try congruence.
  reflexivity.
Qed.

Lemma CreateLeaveRequest_inv Today dto c r c' :
  CreateLeaveRequest Today dto c = (CreatedAtAction r, c') →
  is_Some (Employees c !! CreateLeaveRequestDto.EmployeeId dto)
  ∧ CreateLeaveRequestDto.StartDate dto < CreateLeaveRequestDto.EndDate dto
  ∧ Today ≤ CreateLeaveRequestDto.StartDate dto
  ∧ AnyAsync (overlaps dto) (LeaveRequests c) = false
  ∧ r = created dto c
  ∧ c' = mkContext (Employees c)
           (<[LeaveRequestsSeq c + 1 := created dto c]> (LeaveRequests c))
           (LeaveRequestsSeq c + 1).
Proof.
  create_cases; intros Heq; try discriminate.
  injection Heq as <- <-. repeat split; eauto; lia.
Qed.

(** Whatever the outcome, a call that is not a creation leaves the
    database as it was. *)
Lemma CreateLeaveRequest_failure Today dto c :
  (∀ r, (CreateLeaveRequest Today dto c).1 ≠ CreatedAtAction r) →
  (CreateLeaveRequest Today dto c).2 = c.
Proof.
  create_cases; intros Hfail; try reflexivity.
  exfalso. eapply Hfail. reflexivity.
Qed.

(** C1 (as stated, refuted): the claim promises that a request whose start
    and end date coincide is created when the employee exists, the start
    is not before today and no approved request overlaps.  For employee 1
    of the seeded database, asking on day 100 for day 100 alone, all these
    conditions hold and the call is answered with "End date must be after
    start date"; nothing is stored. *)
Lemma single_day_request_refused :
  is_Some (Employees seeded !! CreateLeaveRequestDto.EmployeeId single_day)
  ∧ CreateLeaveRequestDto.StartDate single_day = CreateLeaveRequestDto.EndDate single_day
  ∧ Date 100 ≤ CreateLeaveRequestDto.StartDate single_day
  ∧ (∀ id lr, LeaveRequests seeded !! id = Some lr → overlaps single_day lr = false)
  ∧ CreateLeaveRequest (Date 100) single_day seeded = (InvalidRange, seeded)
  ∧ ∀ r c', CreateLeaveRequest (Date 100) single_day seeded ≠ (CreatedAtAction r, c').
Proof.
  split; [by eexists|]. split; [reflexivity|]. split; [reflexivity|].
  split; [intros id lr Hid; change (LeaveRequests seeded) with (∅ : gmap Z LeaveRequest.t) in Hid;
          by rewrite lookup_empty in Hid|].
  split; [reflexivity|]. intros r c' Heq. vm_compute in Heq. discriminate.
Qed.

(** C1 (amended): when the employee exists and the start date equals the
    end date, CreateLeaveRequest fails with InvalidRange ("End date must be
    after start date") and stores nothing; a request is created only when
    the start date is strictly before the end date, so the duration of
    every created request is more than one day. *)
Theorem CreateLeaveRequest_single_day Today dto c :
  (is_Some (Employees c !! CreateLeaveRequestDto.EmployeeId dto) →
   CreateLeaveRequestDto.StartDate dto = CreateLeaveRequestDto.EndDate dto →
   CreateLeaveRequest Today dto c = (InvalidRange, c))
  ∧ (∀ r c', CreateLeaveRequest Today dto c = (CreatedAtAction r, c') →
       LeaveRequest.StartDate r < LeaveRequest.EndDate r
       ∧ (1 < duration (LeaveRequest.StartDate r) (LeaveRequest.EndDate r))%Q).
Proof.
  split.
  - intros [e He] Heq. create_cases; try congruence; try lia. reflexivity.
  - intros r c' Hcreate.
    apply CreateLeaveRequest_inv in Hcreate as (_ & Hrange & _ & _ & -> & _).
    split; [exact Hrange|]. apply (duration_lt 1). cbn. lia.
Qed.

Lemma CreateLeaveRequest_single_day_witness :
  CreateLeaveRequest (Date 100) single_day seeded = (InvalidRange, seeded)
  ∧ (1 < duration (Date 100) (AddDays (Date 100) 14))%Q.
Proof.
  split.
  - apply (proj1 (CreateLeaveRequest_single_day (Date 100) single_day seeded)).
    + exists alex. reflexivity.
    + reflexivity.
  - apply (proj2 (CreateLeaveRequest_single_day (Date 100) fortnight seeded)
             (created fortnight seeded)
             (CreateLeaveRequest (Date 100) fortnight seeded).2).
    vm_compute. reflexivity.
Defined.

(** C3: a created request carries the dates of the call; its duration is
    the difference of end and start in days plus one (for calendar days n
    and m that is m - n + 1, both days counted); its status is Rejected
    exactly when that duration exceeds 15 days and Pending otherwise.
    When the validations pass, a request from day N to day N+14 (duration
    15) is created Pending and a request from day N to day N+15 (duration
    16) is created Rejected. *)
Theorem CreateLeaveRequest_initial_status Today dto c :
  let startDate := CreateLeaveRequestDto.StartDate dto in
  let endDate := CreateLeaveRequestDto.EndDate dto in
  (∀ r c', CreateLeaveRequest Today dto c = (CreatedAtAction r, c') →
     LeaveRequests c' !! LeaveRequest.Id r = Some r
     ∧ LeaveRequest.StartDate r = startDate ∧ LeaveRequest.EndDate r = endDate
     ∧ (duration startDate endDate == TotalDays (endDate - startDate)%Z + 1)%Q
     ∧ (LeaveRequest.Status r = LeaveStatus.Rejected ↔ (15 < duration startDate endDate)%Q)
     ∧ (LeaveRequest.Status r = LeaveStatus.Pending ↔ ¬ (15 < duration startDate endDate)%Q))
  ∧ (∀ n m, (duration (Date n) (Date m) == inject_Z (m - n + 1))%Q)
  ∧ (is_Some (Employees c !! CreateLeaveRequestDto.EmployeeId dto) →
     Today ≤ startDate →
     AnyAsync (overlaps dto) (LeaveRequests c) = false →
     (endDate = AddDays startDate 14 →
      (duration startDate endDate == 15)%Q
      ∧ ∃ r c', CreateLeaveRequest Today dto c = (CreatedAtAction r, c')
                ∧ LeaveRequest.Status r = LeaveStatus.Pending)
     ∧ (endDate = AddDays startDate 15 →
        (duration startDate endDate == 16)%Q
        ∧ ∃ r c', CreateLeaveRequest Today dto c = (CreatedAtAction r, c')
                  ∧ LeaveRequest.Status r = LeaveStatus.Rejected)).
Proof.
  intros startDate endDate. split; [|split; [exact duration_Date|]].
  - intros r c' Hcreate.
    apply CreateLeaveRequest_inv in Hcreate as (_ & _ & _ & _ & -> & ->).
    cbn [LeaveRequests LeaveRequest.Id LeaveRequest.StartDate LeaveRequest.EndDate
         LeaveRequest.Status created].
    split; [apply lookup_insert_eq|]. split; [reflexivity|]. split; [reflexivity|].
    split; [reflexivity|].
    fold startDate endDate.
    destruct (Qgtb (duration startDate endDate) 15) eqn:Hlong.
    + apply Qgtb_true in Hlong. by (split; split).
    + apply Qgtb_false in Hlong. by (split; split).
  - intros Hemployee Hpast Hno. split; intros Hend.
    + split; [rewrite Hend; apply (duration_AddDays startDate 14)|].
      eexists _, _. split.
      * apply CreateLeaveRequest_created; try done.
        fold startDate endDate. rewrite Hend. unfold AddDays. lia.
      * cbn [created LeaveRequest.Status]. fold startDate endDate.
        replace (Qgtb (duration startDate endDate) 15) with false; [done|].
        symmetry. apply Qgtb_false. rewrite Hend.
        rewrite (duration_AddDays startDate 14). cbn. apply Qlt_irrefl.
    + split; [rewrite Hend; apply (duration_AddDays startDate 15)|].
      eexists _, _. split.
      * apply CreateLeaveRequest_created; try done.
        fold startDate endDate. rewrite Hend. unfold AddDays. lia.
      * cbn [created LeaveRequest.Status]. fold startDate endDate.
        replace (Qgtb (duration startDate endDate) 15) with true; [done|].
        symmetry. apply Qgtb_true. rewrite Hend.
        rewrite (duration_AddDays startDate 15). reflexivity.
Qed.

Lemma CreateLeaveRequest_initial_status_witness :
  (∃ r c', CreateLeaveRequest (Date 100) fortnight seeded = (CreatedAtAction r, c')
           ∧ LeaveRequest.Status r = LeaveStatus.Pending)
  ∧ (∃ r c', CreateLeaveRequest (Date 100) long_leave seeded = (CreatedAtAction r, c')
             ∧ LeaveRequest.Status r = LeaveStatus.Rejected)
  ∧ (LeaveRequest.Status (created long_leave seeded) = LeaveStatus.Rejected
     ↔ (15 < duration (Date 100) (AddDays (Date 100) 15))%Q).
Proof.
  split; [|split].
  - apply (proj2 (proj2 (CreateLeaveRequest_initial_status (Date 100) fortnight seeded))).
    + exists alex. reflexivity.
    + reflexivity.
    + reflexivity.
    + reflexivity.
  - apply (proj2 (proj2 (CreateLeaveRequest_initial_status (Date 100) long_leave seeded))).
    + exists alex. reflexivity.
    + reflexivity.
    + reflexivity.
    + reflexivity.
  - apply (proj1 (CreateLeaveRequest_initial_status (Date 100) long_leave seeded)
             (created long_leave seeded) with_long).
    vm_compute. reflexivity.
Defined.

(** C4: once the employee, date-range and past-date validations have
    passed, CreateLeaveRequest fails with OverlapConflict exactly when some
    stored request of the same employee with status Approved has
    start <= new end and end >= new start; the database is then unchanged.
    When every stored request that meets the new range in this way is not
    Approved or belongs to another employee, the request is created. *)
Theorem CreateLeaveRequest_overlap Today dto c :
  is_Some (Employees c !! CreateLeaveRequestDto.EmployeeId dto) →
  CreateLeaveRequestDto.StartDate dto < CreateLeaveRequestDto.EndDate dto →
  Today ≤ CreateLeaveRequestDto.StartDate dto →
  ((CreateLeaveRequest Today dto c).1 = OverlapConflict ↔
     ∃ id lr, LeaveRequests c !! id = Some lr
       ∧ LeaveRequest.EmployeeId lr = CreateLeaveRequestDto.EmployeeId dto
       ∧ LeaveRequest.Status lr = LeaveStatus.Approved
       ∧ LeaveRequest.StartDate lr ≤ CreateLeaveRequestDto.EndDate dto
       ∧ LeaveRequest.EndDate lr >= CreateLeaveRequestDto.StartDate dto)
  ∧ ((CreateLeaveRequest Today dto c).1 = OverlapConflict →
     (CreateLeaveRequest Today dto c).2 = c)
  ∧ ((∀ id lr, LeaveRequests c !! id = Some lr →
        LeaveRequest.StartDate lr ≤ CreateLeaveRequestDto.EndDate dto →
        LeaveRequest.EndDate lr >= CreateLeaveRequestDto.StartDate dto →
        LeaveRequest.Status lr ≠ LeaveStatus.Approved
        ∨ LeaveRequest.EmployeeId lr ≠ CreateLeaveRequestDto.EmployeeId dto) →
     ∃ r c', CreateLeaveRequest Today dto c = (CreatedAtAction r, c')
             ∧ LeaveRequests c' !! LeaveRequest.Id r = Some r).
Proof.
  intros Hemployee Hrange Hpast.
  destruct (AnyAsync (overlaps dto) (LeaveRequests c)) eqn:Hoverlap.
  - assert (Hres : CreateLeaveRequest Today dto c = (OverlapConflict, c)).
    { destruct Hemployee as [e He]. create_cases; try congruence; try lia. reflexivity. }
    apply AnyAsync_true in Hoverlap as (id & lr & Hid & Hlr).
    apply overlaps_true in Hlr as (Hemp & Hst & Hs & He).
    rewrite Hres. split; [|split].
    + split; [|done]. intros _. exists id, lr. done.
    + done.
    + intros Hnone. destruct (Hnone id lr Hid Hs He); done.
  - rewrite (CreateLeaveRequest_created Today dto c Hemployee Hrange Hpast Hoverlap).
    cbn [fst snd]. split; [|split].
    + split; [discriminate|].
      intros (id & lr & Hid & Hlr). exfalso.
      rewrite AnyAsync_false in Hoverlap. specialize (Hoverlap id lr Hid).
      apply not_true_iff_false in Hoverlap. apply Hoverlap, overlaps_true. done.
    + discriminate.
    + intros _. eexists _, _. split; [reflexivity|]. apply lookup_insert_eq.
Qed.

Lemma CreateLeaveRequest_overlap_witness :
  (CreateLeaveRequest (Date 100) overlapping with_long_approved).1 = OverlapConflict
  ∧ ∃ r c', CreateLeaveRequest (Date 100) overlapping with_long = (CreatedAtAction r, c')
            ∧ LeaveRequests c' !! LeaveRequest.Id r = Some r.
Proof.
  split.
  - apply (CreateLeaveRequest_overlap (Date 100) overlapping with_long_approved).
    + exists alex. reflexivity.
    + reflexivity.
    + vm_compute. discriminate.
    + exists 1, (LeaveRequest.set_Status LeaveStatus.Approved (created long_leave seeded)).
      vm_compute. repeat split; discriminate.
  - apply (CreateLeaveRequest_overlap (Date 100) overlapping with_long).
    + exists alex. reflexivity.
    + reflexivity.
    + vm_compute. discriminate.
    + intros id lr Hid _ _. left.
      destruct (decide (id = 1)) as [->|Hne].
      * vm_compute in Hid. injection Hid as <-. vm_compute. discriminate.
      * unfold with_long in Hid.
        rewrite (CreateLeaveRequest_created (Date 100) long_leave seeded) in Hid.
        -- cbn [snd LeaveRequests] in Hid. rewrite lookup_insert_ne in Hid by done.
           change (LeaveRequests seeded) with (∅ : gmap Z LeaveRequest.t) in Hid.
           by rewrite lookup_empty in Hid.
        -- exists alex. reflexivity.
        -- reflexivity.
        -- vm_compute. discriminate.
        -- reflexivity.
Defined.

(** *** Setting the status *)

Ltac update_cases :=
  unfold UpdateLeaveStatus, PermanentlyDeleteRequest;
  match goal with
  | |- context [Employees ?c !! ?k] =>
      destruct (Employees c !! k) as [?manager|] eqn:?Hmanager
  end;
  [ match goal with
    | |- context [decide (?P)] => destruct (decide P) as [?Hrole|?Hrole]
    end;
    [ | match goal with
        | |- context [LeaveRequests ?c !! ?k] =>
            destruct (LeaveRequests c !! k) as [?request|] eqn:?Hrequest
        end ]
  | ]; cbn [fst snd].

(** The two branches of the override test store the same request. *)
Lemma UpdateLeaveStatus_authorized id managerId statusString c manager request :
  Employees c !! managerId = Some manager →
  Employee.Role manager = Role.Manager →
  LeaveRequests c !! id = Some request →
  UpdateLeaveStatus id managerId statusString c =
    match Enum.TryParse LeaveStatus.Names statusString true with
    | Some status =>
        (NoContent,
         with_LeaveRequests
           (<[id := LeaveRequest.set_Status status request]> (LeaveRequests c)) c)
    | None => (InvalidStatus, c)
    end.
Proof.
  intros Hm Hr Hreq. unfold UpdateLeaveStatus. rewrite Hm, Hreq.
  destruct (decide (Employee.Role manager ≠ Role.Manager)) as [Hne|_]; [done|].
  destruct (Enum.TryParse LeaveStatus.Names statusString true) as [status|]; [|done].
  by destruct (Qgtb _ 15 && (status =? LeaveStatus.Approved)).
Qed.

(** A text the parser refuses is answered with InvalidStatus and changes
    nothing. *)
Lemma UpdateLeaveStatus_invalid_status id managerId statusString c :
  Enum.TryParse LeaveStatus.Names statusString true = None →
  (UpdateLeaveStatus id managerId statusString c).2 = c
  ∧ (UpdateLeaveStatus id managerId statusString c).1 ≠ NoContent.
Proof.
  intros Hparse. unfold UpdateLeaveStatus. rewrite Hparse.
  destruct (Employees c !! managerId) as [manager|]; [|done].
  destruct (decide (Employee.Role manager ≠ Role.Manager)); [done|].
  by destruct (LeaveRequests c !! id).
Qed.

(** C2 (the code departs from the claim): the manager (employee 2) sends
    the text "Pending", which is neither "Approved" nor "Rejected", for the
    approved request 1.  The call is not answered with InvalidStatus: it
    succeeds with NoContent and the stored status becomes Pending.  The
    text "7" is accepted as well and stores a status that no member
    names. *)
Theorem UpdateLeaveStatus_accepts_Pending :
  (LeaveRequest.Status <$> LeaveRequests with_long_approved !! 1) = Some LeaveStatus.Approved
  ∧ (UpdateLeaveStatus 1 2 "Pending" with_long_approved).1 = NoContent
  ∧ (UpdateLeaveStatus 1 2 "Pending" with_long_approved).1 ≠ InvalidStatus
  ∧ (LeaveRequest.Status <$>
       LeaveRequests (UpdateLeaveStatus 1 2 "Pending" with_long_approved).2 !! 1)
    = Some LeaveStatus.Pending
  ∧ (UpdateLeaveStatus 1 2 "7" with_long_approved).1 = NoContent
  ∧ (LeaveRequest.Status <$>
       LeaveRequests (UpdateLeaveStatus 1 2 "7" with_long_approved).2 !! 1)
    = Some 7.
Proof. vm_compute. repeat split; discriminate. Qed.

(** C5: when the actor is a manager, the request exists and the status
    text is accepted, UpdateLeaveStatus succeeds and stores the parsed
    status in the request, whatever the request's dates and current status
    and whatever else the database holds; the other fields of the request,
    the other requests and the employees are unchanged.  "Approved" and
    "Rejected" are accepted and parse to Approved and Rejected. *)
Theorem UpdateLeaveStatus_sets_status id managerId statusString c manager request status :
  Employees c !! managerId = Some manager →
  Employee.Role manager = Role.Manager →
  LeaveRequests c !! id = Some request →
  Enum.TryParse LeaveStatus.Names statusString true = Some status →
  let c' := (UpdateLeaveStatus id managerId statusString c).2 in
  (UpdateLeaveStatus id managerId statusString c).1 = NoContent
  ∧ LeaveRequests c' !! id =
      Some (LeaveRequest.mk (LeaveRequest.Id request) (LeaveRequest.EmployeeId request)
              (LeaveRequest.StartDate request) (LeaveRequest.EndDate request)
              status (LeaveRequest.Reason request))
  ∧ (∀ id', id' ≠ id → LeaveRequests c' !! id' = LeaveRequests c !! id')
  ∧ Employees c' = Employees c
  ∧ Enum.TryParse LeaveStatus.Names "Approved" true = Some LeaveStatus.Approved
  ∧ Enum.TryParse LeaveStatus.Names "Rejected" true = Some LeaveStatus.Rejected.
Proof.
  intros Hm Hr Hreq Hparse c'. subst c'.
  rewrite (UpdateLeaveStatus_authorized _ _ _ _ _ _ Hm Hr Hreq), Hparse.
  cbn [fst snd LeaveRequests Employees with_LeaveRequests].
  split; [done|]. split; [apply lookup_insert_eq|].
  split; [intros id' Hne; by apply lookup_insert_ne|]. done.
Qed.

Lemma UpdateLeaveStatus_sets_status_witness :
  (LeaveRequest.Status <$> LeaveRequests with_long !! 1) = Some LeaveStatus.Rejected
  ∧ (15 < duration (Date 100) (AddDays (Date 100) 15))%Q
  ∧ (LeaveRequest.Status <$> LeaveRequests (UpdateLeaveStatus 1 2 "Approved" with_long).2 !! 1)
    = Some LeaveStatus.Approved
  ∧ (LeaveRequest.Status <$>
       LeaveRequests (UpdateLeaveStatus 1 2 "Rejected" with_long_approved).2 !! 1)
    = Some LeaveStatus.Rejected
  ∧ (UpdateLeaveStatus 2 2 "Approved" with_two_one_approved).1 = NoContent.
Proof.
  split; [reflexivity|]. split; [reflexivity|]. split; [|split].
  - pose proof (UpdateLeaveStatus_sets_status 1 2 "Approved" with_long morgan
                  (created long_leave seeded) LeaveStatus.Approved) as H.
    destruct H as (_ & -> & _); reflexivity.
  - pose proof (UpdateLeaveStatus_sets_status 1 2 "Rejected" with_long_approved morgan
                  (LeaveRequest.set_Status LeaveStatus.Approved (created long_leave seeded))
                  LeaveStatus.Rejected) as H.
    destruct H as (_ & -> & _); reflexivity.
  - apply (UpdateLeaveStatus_sets_status 2 2 "Approved" with_two_one_approved morgan
             (created overlapping with_long) LeaveStatus.Approved); reflexivity.
Defined.

(** C6: UpdateLeaveStatus fails with Unauthorized exactly when the actor id
    resolves to no employee or to an employee whose role is not Manager;
    the database is then unchanged; and since the actor is checked before
    the request is looked up, such an actor receives Unauthorized also
    when the request id does not exist. *)
Theorem UpdateLeaveStatus_unauthorized id managerId statusString c :
  let no_manager :=
    Employees c !! managerId = None
    ∨ ∃ e, Employees c !! managerId = Some e ∧ Employee.Role e ≠ Role.Manager in
  ((UpdateLeaveStatus id managerId statusString c).1 = Unauthorized ↔ no_manager)
  ∧ ((UpdateLeaveStatus id managerId statusString c).1 = Unauthorized →
     (UpdateLeaveStatus id managerId statusString c).2 = c)
  ∧ (no_manager → LeaveRequests c !! id = None →
     UpdateLeaveStatus id managerId statusString c = (Unauthorized, c)).
Proof.
  intros no_manager. subst no_manager. update_cases.
  - split; [|split]; try done. split; [|done]. intros _. right. eauto.
  - split; [|split].
    + split; [|intros [?|(e & [= <-] & ?)]; done].
      destruct (Enum.TryParse _ _ _); [|done].
      by destruct (Qgtb _ _ && _).
    + destruct (Enum.TryParse _ _ _); [|done]. by destruct (Qgtb _ _ && _).
    + intros [?|(e & [= <-] & ?)]; done.
  - split; [|split].
    + split; [done|]. intros [?|(e & [= <-] & ?)]; done.
    + done.
    + intros [?|(e & [= <-] & ?)]; done.
  - split; [|split]; try done. split; [|done]. intros _. by left.
Qed.

Lemma UpdateLeaveStatus_unauthorized_witness :
  UpdateLeaveStatus 99 1 "Approved" with_long = (Unauthorized, with_long)
  ∧ (UpdateLeaveStatus 1 5 "Approved" with_long).2 = with_long.
Proof.
  split.
  - apply (UpdateLeaveStatus_unauthorized 99 1 "Approved" with_long).
    + right. exists alex. split; [reflexivity|discriminate].
    + reflexivity.
  - apply (UpdateLeaveStatus_unauthorized 1 5 "Approved" with_long).
    apply (UpdateLeaveStatus_unauthorized 1 5 "Approved" with_long).
    left. reflexivity.
Defined.

(** *** Cancelling *)

(** C7: CancelLeaveRequest answers with the same Unauthorized result when
    no request is stored under the id and when the request belongs to
    another employee than the caller; for the owner it fails with
    InvalidState when the status is not Pending and otherwise removes the
    request (the key sequence does not move, so the id is not given out
    again); on every failure the database is unchanged. *)
Theorem CancelLeaveRequest_outcomes id employeeId c :
  (LeaveRequests c !! id = None →
   CancelLeaveRequest id employeeId c = (Unauthorized, c))
  ∧ (∀ r, LeaveRequests c !! id = Some r →
       LeaveRequest.EmployeeId r ≠ employeeId →
       CancelLeaveRequest id employeeId c = (Unauthorized, c))
  ∧ (∀ r, LeaveRequests c !! id = Some r →
       LeaveRequest.EmployeeId r = employeeId →
       LeaveRequest.Status r ≠ LeaveStatus.Pending →
       CancelLeaveRequest id employeeId c = (InvalidState, c))
  ∧ (∀ r, LeaveRequests c !! id = Some r →
       LeaveRequest.EmployeeId r = employeeId →
       LeaveRequest.Status r = LeaveStatus.Pending →
       let c' := (CancelLeaveRequest id employeeId c).2 in
       (CancelLeaveRequest id employeeId c).1 = NoContent
       ∧ LeaveRequests c' !! id = None
       ∧ (∀ id', id' ≠ id → LeaveRequests c' !! id' = LeaveRequests c !! id')
       ∧ Employees c' = Employees c
       ∧ LeaveRequestsSeq c' = LeaveRequestsSeq c)
  ∧ ((CancelLeaveRequest id employeeId c).1 ≠ NoContent →
     (CancelLeaveRequest id employeeId c).2 = c).
Proof.
  unfold CancelLeaveRequest.
  destruct (LeaveRequests c !! id) as [request|] eqn:Hrequest.
  - destruct (decide (LeaveRequest.EmployeeId request ≠ employeeId)) as [Hother|Hown].
    { repeat split; intros; simplify_eq; done. }
    destruct (decide (LeaveRequest.Status request ≠ LeaveStatus.Pending)) as [Hst|Hst].
    { repeat split; intros; simplify_eq; done. }
    split; [done|]. split; [intros r [= <-]; done|]. split; [intros r [= <-]; done|].
    split; [|done].
    intros r _ _ _. cbn [fst snd Remove with_LeaveRequests LeaveRequests Employees
                        LeaveRequestsSeq].
    split; [done|]. split; [apply lookup_delete_eq|].
    split; [intros id' Hne; by apply lookup_delete_ne|]. done.
  - repeat split; done.
Qed.

Lemma CancelLeaveRequest_outcomes_witness :
  CancelLeaveRequest 99 1 with_two = (Unauthorized, with_two)
  ∧ CancelLeaveRequest 2 2 with_two = (Unauthorized, with_two)
  ∧ CancelLeaveRequest 1 1 with_two = (InvalidState, with_two)
  ∧ ((CancelLeaveRequest 2 1 with_two).1 = NoContent
     ∧ LeaveRequests (CancelLeaveRequest 2 1 with_two).2 !! 2 = None).
Proof.
  split; [|split; [|split]].
  - apply (CancelLeaveRequest_outcomes 99 1 with_two). reflexivity.
  - apply (CancelLeaveRequest_outcomes 2 2 with_two) with (r := created overlapping with_long).
    + reflexivity.
    + discriminate.
  - apply (CancelLeaveRequest_outcomes 1 1 with_two) with (r := created long_leave seeded).
    + reflexivity.
    + reflexivity.
    + discriminate.
  - destruct (CancelLeaveRequest_outcomes 2 1 with_two) as (_ & _ & _ & Hok & _).
    destruct (Hok (created overlapping with_long)) as (Hres & Hgone & _);
      [reflexivity..|].
    split; [exact Hres|exact Hgone].
Defined.

(** *** The stored dates *)

(** Creation stores the one new request, and does so only after it has
    checked that the start is before the end. *)
Lemma CreateLeaveRequest_dates Today dto c :
  dates_in_order c → dates_in_order (CreateLeaveRequest Today dto c).2.
Proof.
  intros Hc. create_cases; try exact Hc.
  intros id r. cbn [LeaveRequests]. rewrite lookup_insert. case_decide.
  - intros [= <-]. cbn. lia.
  - apply Hc.
Qed.

(** Setting the status writes the status field only. *)
Lemma UpdateLeaveStatus_dates id managerId statusString c :
  dates_in_order c → dates_in_order (UpdateLeaveStatus id managerId statusString c).2.
Proof.
  intros Hc. update_cases; try exact Hc.
  destruct (Enum.TryParse _ _ _) as [status|]; [|exact Hc].
  assert (Hsame : ∀ b : bool,
    (if b then LeaveRequest.set_Status status request
     else LeaveRequest.set_Status status request)
    = LeaveRequest.set_Status status request) by (by intros []).
  rewrite Hsame. intros id' r. cbn [snd with_LeaveRequests LeaveRequests].
  rewrite lookup_insert. case_decide.
  - intros [= <-]. cbn. subst. by apply (Hc id').
  - apply Hc.
Qed.

(** Cancelling and deleting only remove a row. *)
Lemma Remove_dates id c : dates_in_order c → dates_in_order (Remove id c).
Proof.
  intros Hc id' r. cbn [Remove with_LeaveRequests LeaveRequests].
  rewrite lookup_delete_Some. intros [_ Hr]. by apply (Hc id').
Qed.

Lemma step_dates c c' : step c c' → dates_in_order c → dates_in_order c'.
Proof.
  intros [Today dto|id managerId statusString|id employeeId|id managerId] Hc.
  - by apply CreateLeaveRequest_dates.
  - by apply UpdateLeaveStatus_dates.
  - unfold CancelLeaveRequest. destruct (LeaveRequests c !! id); [|done].
    repeat case_decide; try done. by apply Remove_dates.
  - update_cases; try done. by apply Remove_dates.
Qed.

(** C8: in every database reachable from one without requests by calls of
    create, set status, cancel and permanent delete, each stored request
    has its start date at or before its end date. *)
Theorem reachable_dates_in_order c :
  reachable c →
  ∀ id r, LeaveRequests c !! id = Some r →
    LeaveRequest.StartDate r ≤ LeaveRequest.EndDate r.
Proof.
  intros [employees Hsteps]. change (dates_in_order c).
  revert c Hsteps. apply rtc_ind_r.
  - intros id r Hid. cbn in Hid. by rewrite lookup_empty in Hid.
  - intros c1 c2 _ Hstep IH. by apply (step_dates c1 c2).
Qed.

Lemma reachable_dates_in_order_witness :
  reachable with_two
  ∧ LeaveRequests with_two !! 2 = Some (created overlapping with_long)
  ∧ LeaveRequest.StartDate (created overlapping with_long)
    ≤ LeaveRequest.EndDate (created overlapping with_long).
Proof.
  assert (Hreach : reachable with_two).
  { exists (Employees seeded). eapply rtc_r.
    - apply rtc_once. apply (step_create seeded (Date 100) long_leave).
    - apply (step_create with_long (Date 100) overlapping). }
  split; [exact Hreach|]. split; [reflexivity|].
  apply (reachable_dates_in_order with_two Hreach 2). reflexivity.
Defined.

(** *** Listing *)

#[local] Instance StartDate_desc_total : Total StartDate_desc.
Proof. intros a b. unfold StartDate_desc. lia. Qed.

#[local] Instance StartDate_desc_trans : Transitive StartDate_desc.
Proof. intros a b d. unfold StartDate_desc. lia. Qed.

Lemma StronglySorted_descending (l : list LeaveRequest.t) :
  StronglySorted StartDate_desc l → descending_by_StartDate l.
Proof.
  induction 1 as [|x l Hl IH Hx]; intros i j a b Hij Hi Hj.
  - by rewrite lookup_nil in Hi.
  - destruct j as [|j]; [lia|]. cbn in Hj. destruct i as [|i]; cbn in Hi.
    + injection Hi as <-. rewrite Forall_forall in Hx.
      apply Hx. by apply list_elem_of_lookup_2 in Hj.
    + apply (IH i j); [lia|done..].
Qed.

Lemma OrderByDescending_StartDate_descending (l : list LeaveRequest.t) :
  descending_by_StartDate (OrderByDescending_StartDate l).
Proof. apply StronglySorted_descending, StronglySorted_merge_sort; apply _. Qed.

Lemma OrderByDescending_StartDate_Permutation (l : list LeaveRequest.t) :
  OrderByDescending_StartDate l ≡ₚ l.
Proof. apply merge_sort_Permutation. Qed.

Lemma Where_EmployeeId (id : Z) (l : list LeaveRequest.t) :
  Where (fun lr => LeaveRequest.EmployeeId lr =? id) l
  = filter (λ lr, LeaveRequest.EmployeeId lr = id) l.
Proof.
  induction l as [|x l IH]; [done|]. rewrite filter_cons, <- IH.
  unfold Where. cbn [List.filter].
  destruct (Z.eqb_spec (LeaveRequest.EmployeeId x) id); by case_decide.
Qed.

(** C9: GetLeaveRequests returns all stored requests when no caller id is
    given or the id is that of a manager, and exactly the requests owned
    by the caller when the id is that of an employee with role Employee;
    the list returned is in descending order of start date. *)
Theorem GetLeaveRequests_lists employeeId c :
  (employeeId = None
   ∨ (∃ id e, employeeId = Some id ∧ Employees c !! id = Some e
              ∧ Employee.Role e = Role.Manager) →
   ∃ l, GetLeaveRequests employeeId c = Ok l
        ∧ l ≡ₚ rows (LeaveRequests c)
        ∧ (∀ r, r ∈ l ↔ ∃ k, LeaveRequests c !! k = Some r)
        ∧ descending_by_StartDate l)
  ∧ (∀ id e, employeeId = Some id → Employees c !! id = Some e →
       Employee.Role e = Role.Employee →
       ∃ l, GetLeaveRequests employeeId c = Ok l
            ∧ l ≡ₚ filter (λ r, LeaveRequest.EmployeeId r = id) (rows (LeaveRequests c))
            ∧ (∀ r, r ∈ l ↔ (∃ k, LeaveRequests c !! k = Some r)
                              ∧ LeaveRequest.EmployeeId r = id)
            ∧ descending_by_StartDate l).
Proof.
  assert (Hall : ∃ l, Ok (OrderByDescending_StartDate (rows (LeaveRequests c))) = Ok l
        ∧ l ≡ₚ rows (LeaveRequests c)
        ∧ (∀ r, r ∈ l ↔ ∃ k, LeaveRequests c !! k = Some r)
        ∧ descending_by_StartDate l).
  { eexists. split; [reflexivity|].
    split; [apply OrderByDescending_StartDate_Permutation|].
    split; [|apply OrderByDescending_StartDate_descending].
    intros r. rewrite OrderByDescending_StartDate_Permutation. apply elem_of_rows. }
  split.
  - intros [->|(id & e & -> & He & Hrole)]; [exact Hall|].
    unfold GetLeaveRequests. rewrite He.
    destruct (decide (Employee.Role e = Role.Manager)); [exact Hall|done].
  - intros id e -> He Hrole. unfold GetLeaveRequests. rewrite He.
    destruct (decide (Employee.Role e = Role.Manager)) as [Hm|_]; [congruence|].
    eexists. split; [reflexivity|]. rewrite Where_EmployeeId.
    split; [apply OrderByDescending_StartDate_Permutation|].
    split; [|apply OrderByDescending_StartDate_descending].
    intros r. rewrite OrderByDescending_StartDate_Permutation.
    rewrite list_elem_of_filter, elem_of_rows. tauto.
Qed.

Lemma GetLeaveRequests_lists_witness :
  (∃ l, GetLeaveRequests None with_two = Ok l ∧ l ≡ₚ rows (LeaveRequests with_two))
  ∧ (∃ l, GetLeaveRequests (Some 2) with_two = Ok l ∧ l ≡ₚ rows (LeaveRequests with_two))
  ∧ (∃ l, GetLeaveRequests (Some 1) with_two = Ok l
          ∧ ∀ r, r ∈ l ↔ (∃ k, LeaveRequests with_two !! k = Some r)
                           ∧ LeaveRequest.EmployeeId r = 1).
Proof.
  split; [|split].
  - destruct (proj1 (GetLeaveRequests_lists None with_two)) as (l & Hl & Hp & _).
    + by left.
    + by exists l.
  - destruct (proj1 (GetLeaveRequests_lists (Some 2) with_two)) as (l & Hl & Hp & _).
    + right. exists 2, morgan. done.
    + by exists l.
  - destruct (proj2 (GetLeaveRequests_lists (Some 1) with_two) 1 alex)
      as (l & Hl & _ & Hin & _); [reflexivity..|].
    by exists l.
Defined.

(** C10: when the query gives a caller id under which no employee is
    stored, GetLeaveRequests fails with NotFound "Employee not found" and
    returns no list. *)
Theorem GetLeaveRequests_unknown_employee id c :
  Employees c !! id = None →
  GetLeaveRequests (Some id) c = EmployeeNotFound
  ∧ ∀ l, GetLeaveRequests (Some id) c ≠ Ok l.
Proof.
  intros Hnone. unfold GetLeaveRequests. rewrite Hnone. by split.
Qed.

Lemma GetLeaveRequests_unknown_employee_witness :
  GetLeaveRequests (Some 99) with_two = EmployeeNotFound
  ∧ ∀ l, GetLeaveRequests (Some 99) with_two ≠ Ok l.
Proof.
  apply (GetLeaveRequests_unknown_employee 99 with_two). reflexivity.
Defined.

(** ** Further properties of the controller *)

(** *** Status texts *)

Lemma FindName_LeaveStatus ignoreCase sub v :
  Enum.FindName LeaveStatus.Names ignoreCase sub = Some v → v = 0 ∨ v = 1 ∨ v = 2.
Proof.
  unfold LeaveStatus.Names. cbn [Enum.FindName].
  repeat match goal with
         | |- context [if ?b then _ else _] => destruct b
         end; intros [= <-]; auto.
Qed.

Lemma OrNames_LeaveStatus ignoreCase subs acc v :
  0 ≤ acc ≤ 3 →
  Enum.OrNames LeaveStatus.Names ignoreCase subs acc = Some v → 0 ≤ v ≤ 3.
Proof.
  revert acc. induction subs as [|sub subs IH]; intros acc Hacc; cbn [Enum.OrNames].
  - intros [= <-]. exact Hacc.
  - destruct (Enum.FindName _ _ _) as [w|] eqn:Hw; [|discriminate].
    apply IH. apply FindName_LeaveStatus in Hw.
    assert (acc = 0 ∨ acc = 1 ∨ acc = 2 ∨ acc = 3) as Hcases by lia.
    destruct Hcases as [-> | [-> | [-> | ->]]]; destruct Hw as [-> | [-> | ->]];
      vm_compute; split; discriminate.
Qed.

Lemma TryParseInt32_range s v :
  Enum.TryParseInt32 s = Enum.OK v → Enum.Int32_MinValue ≤ v ≤ Enum.Int32_MaxValue.
Proof.
  unfold Enum.TryParseInt32.
  destruct (match s with
            | [] => (false, [])
            | c :: s' =>
                if Ascii.eqb c "-" then (true, s')
                else if Ascii.eqb c "+" then (false, s') else (false, s)
            end) as [negative s1].
  destruct s1 as [|c s1]; [discriminate|].
  destruct (Enum.IsAsciiDigit c); [|discriminate].
  destruct (Enum.digits 0 (c :: s1)) as [n rest].
  destruct (Enum.TrailingZeros _); [|discriminate].
  destruct (Z.leb_spec Enum.Int32_MinValue (if negative then - n else n));
    destruct (Z.leb_spec (if negative then - n else n) Enum.Int32_MaxValue);
    cbn [andb]; intros [= <-]; lia.
Qed.

Lemma TryParse_LeaveStatus_range statusString ignoreCase v :
  Enum.TryParse LeaveStatus.Names statusString ignoreCase = Some v →
  Enum.Int32_MinValue ≤ v ≤ Enum.Int32_MaxValue.
Proof.
  assert (Hname : ∀ t, Enum.TryParseByName LeaveStatus.Names ignoreCase t = Some v →
                       Enum.Int32_MinValue ≤ v ≤ Enum.Int32_MaxValue).
  { intros t Ht. apply OrNames_LeaveStatus in Ht; [|lia].
    unfold Enum.Int32_MinValue, Enum.Int32_MaxValue. lia. }
  unfold Enum.TryParse.
  destruct (Enum.TrimStart _) as [|c t]; [discriminate|].
  destruct (negb _ && negb _ && negb _); [apply Hname|].
  destruct (Enum.TryParseInt32 (c :: t)) as [ n | | ] eqn:Hn.
  - intros [= <-]. by apply TryParseInt32_range in Hn.
  - apply Hname.
  - discriminate.
Qed.

(** *** The shape of a call *)

Lemma step_effect c c' : step c c' → effect c c'.
Proof.
  intros [Today dto|id managerId statusString|id employeeId|id managerId].
  - create_cases; try apply effect_none. by apply effect_created.
  - update_cases; try apply effect_none.
    destruct (Enum.TryParse _ _ _) as [status|] eqn:Hparse; [|apply effect_none].
    assert (Hsame : ∀ b : bool,
      (if b then LeaveRequest.set_Status status request
       else LeaveRequest.set_Status status request)
      = LeaveRequest.set_Status status request) by (by intros []).
    cbn [snd]. rewrite Hsame. apply effect_status; [done|].
    by apply TryParse_LeaveStatus_range in Hparse.
  - unfold CancelLeaveRequest.
    destruct (LeaveRequests c !! id) as [request|] eqn:Hrequest; [|apply effect_none].
    repeat case_decide; try apply effect_none. by apply (effect_removed c id request).
  - update_cases; try apply effect_none. by apply (effect_removed c id request).
Qed.

Lemma steps_effect (P : AppDbContext → Prop) c c' :
  (∀ c1 c2, effect c1 c2 → P c1 → P c2) → rtc step c c' → P c → P c'.
Proof.
  intros Hstep Hsteps Hc. revert c' Hsteps. apply rtc_ind_r; [exact Hc|].
  intros c1 c2 _ H12 IH. apply (Hstep c1 c2); [by apply step_effect|exact IH].
Qed.

Lemma effect_Employees c c' : effect c c' → Employees c' = Employees c.
Proof. by intros []. Qed.

Lemma effect_keyed_by_Id c c' : effect c c' → keyed_by_Id c → keyed_by_Id c'.
Proof.
  intros [|dto _ _|id request status Hid _|id request Hid] [Hseq Hc]; [done|..].
  - split; cbn [LeaveRequestsSeq LeaveRequests]; [lia|].
    intros id r. rewrite lookup_insert. case_decide.
    + intros [= <-]. cbn. lia.
    + intros Hr. destruct (Hc id r Hr). lia.
  - split; [done|]. cbn [with_LeaveRequests LeaveRequestsSeq LeaveRequests].
    intros id' r. rewrite lookup_insert. case_decide.
    + intros [= <-]. subst id'. cbn. by apply Hc.
    + apply Hc.
  - split; [done|]. cbn [Remove with_LeaveRequests LeaveRequestsSeq LeaveRequests].
    intros id' r. rewrite lookup_delete_Some. intros [_ Hr]. by apply Hc.
Qed.

Lemma effect_owners_known c c' : effect c c' → owners_known c → owners_known c'.
Proof.
  intros [|dto Hemployee _|id request status Hid _|id request Hid] Hc; [done|..].
  - intros id r. cbn [LeaveRequests Employees]. rewrite lookup_insert. case_decide.
    + intros [= <-]. exact Hemployee.
    + apply Hc.
  - intros id' r. cbn [with_LeaveRequests LeaveRequests Employees].
    rewrite lookup_insert. case_decide.
    + intros [= <-]. cbn. by apply (Hc id).
    + apply Hc.
  - intros id' r. cbn [Remove with_LeaveRequests LeaveRequests Employees].
    rewrite lookup_delete_Some. intros [_ Hr]. by apply (Hc id').
Qed.

Lemma created_Status dto c :
  LeaveRequest.Status (created dto c) = LeaveStatus.Pending
  ∨ LeaveRequest.Status (created dto c) = LeaveStatus.Rejected.
Proof. cbn. destruct (Qgtb _ _); auto. Qed.

Lemma effect_statuses_Int32 c c' : effect c c' → statuses_Int32 c → statuses_Int32 c'.
Proof.
  intros [|dto _ _|id request status Hid Hrange|id request Hid] Hc; [done|..].
  - intros id r. cbn [LeaveRequests]. rewrite lookup_insert. case_decide.
    + intros [= <-]. destruct (created_Status dto c) as [-> | ->];
        vm_compute; split; discriminate.
    + apply Hc.
  - intros id' r. cbn [with_LeaveRequests LeaveRequests].
    rewrite lookup_insert. case_decide.
    + intros [= <-]. exact Hrange.
    + apply Hc.
  - intros id' r. cbn [Remove with_LeaveRequests LeaveRequests].
    rewrite lookup_delete_Some. intros [_ Hr]. by apply (Hc id').
Qed.

Lemma effect_retired id c c' : effect c c' → retired id c → retired id c'.
Proof.
  intros [|dto _ _|id' request status Hid _|id' request Hid] [Hseq Hnone]; [done|..].
  - split; cbn [LeaveRequestsSeq LeaveRequests]; [lia|].
    rewrite lookup_insert_ne by lia. exact Hnone.
  - split; [done|]. cbn [with_LeaveRequests LeaveRequests].
    rewrite lookup_insert_ne by congruence. exact Hnone.
  - split; [done|]. cbn [Remove with_LeaveRequests LeaveRequests].
    rewrite lookup_delete_None. by right.
Qed.

Lemma initial_keyed_by_Id employees : keyed_by_Id (initial employees).
Proof. split; [done|]. intros id r Hid. cbn in Hid. by rewrite lookup_empty in Hid. Qed.

Lemma reachable_keyed c : reachable c → keyed_by_Id c.
Proof.
  intros [employees Hsteps].
  apply (steps_effect keyed_by_Id _ _ effect_keyed_by_Id Hsteps), initial_keyed_by_Id.
Qed.

Lemma reachable_step c c' : reachable c → step c c' → reachable c'.
Proof. intros [employees Hsteps] Hstep. exists employees. by eapply rtc_r. Qed.

Lemma reachable_with_long : reachable with_long.
Proof.
  apply (reachable_step seeded).
  - exists (Employees seeded). apply rtc_refl.
  - apply (step_create seeded (Date 100) long_leave).
Qed.

Lemma reachable_with_two : reachable with_two.
Proof.
  apply (reachable_step with_long); [apply reachable_with_long|].
  apply (step_create with_long (Date 100) overlapping).
Qed.

Lemma CancelLeaveRequest_NoContent id employeeId c c' :
  CancelLeaveRequest id employeeId c = (NoContent, c') →
  ∃ request, LeaveRequests c !! id = Some request
    ∧ LeaveRequest.EmployeeId request = employeeId
    ∧ LeaveRequest.Status request = LeaveStatus.Pending
    ∧ c' = Remove id c.
Proof.
  unfold CancelLeaveRequest.
  destruct (LeaveRequests c !! id) as [request|]; [|discriminate].
  destruct (decide (LeaveRequest.EmployeeId request ≠ employeeId)) as [|Hown];
    [discriminate|].
  destruct (decide (LeaveRequest.Status request ≠ LeaveStatus.Pending)) as [|Hst];
    [discriminate|].
  intros [= <-]. exists request. repeat split.
  - by destruct (decide (LeaveRequest.EmployeeId request = employeeId)).
  - by destruct (decide (LeaveRequest.Status request = LeaveStatus.Pending)).
Qed.

Lemma PermanentlyDeleteRequest_NoContent id managerId c c' :
  PermanentlyDeleteRequest id managerId c = (NoContent, c') →
  ∃ manager request, Employees c !! managerId = Some manager
    ∧ Employee.Role manager = Role.Manager
    ∧ LeaveRequests c !! id = Some request
    ∧ c' = Remove id c.
Proof.
  update_cases; intros [= <-]. exists manager, request. repeat split; try done.
  by destruct (decide (Employee.Role manager = Role.Manager)).
Qed.

(** *** Invariants of the databases the calls produce *)

(** X1: in every database reachable by calls from one without requests,
    each request is stored under its own Id, and all ids in use lie
    between 1 and the last key the sequence gave out. *)
Theorem stored_under_own_Id c :
  reachable c →
  0 ≤ LeaveRequestsSeq c
  ∧ ∀ id r, LeaveRequests c !! id = Some r →
      LeaveRequest.Id r = id ∧ 1 ≤ id ≤ LeaveRequestsSeq c.
Proof.
  intros Hc. destruct (reachable_keyed c Hc) as [Hseq Hkeys]. split; [done|].
  intros id r Hr. destruct (Hkeys id r Hr). lia.
Qed.

Lemma stored_under_own_Id_witness :
  LeaveRequest.Id (created overlapping with_long) = 2 ∧ 1 ≤ 2 ≤ LeaveRequestsSeq with_two.
Proof.
  apply (proj2 (stored_under_own_Id with_two reachable_with_two)).
  reflexivity.
Defined.

(** X2: in every reachable database each stored request belongs to an
    employee of the Employees table. *)
Theorem stored_owner_exists c :
  reachable c →
  ∀ id r, LeaveRequests c !! id = Some r →
    ∃ e, Employees c !! LeaveRequest.EmployeeId r = Some e.
Proof.
  intros [employees Hsteps] id r Hr.
  assert (Hc : owners_known c).
  { apply (steps_effect owners_known _ _ effect_owners_known Hsteps).
    intros id' r' Hid. cbn in Hid. by rewrite lookup_empty in Hid. }
  exact (Hc id r Hr).
Qed.

Lemma stored_owner_exists_witness :
  ∃ e, Employees with_two !! LeaveRequest.EmployeeId (created overlapping with_long) = Some e.
Proof.
  apply (stored_owner_exists with_two reachable_with_two 2). reflexivity.
Defined.

(** X3: in every reachable database each stored status is a value of the
    enum's underlying type Int32, whatever status texts were sent. *)
Theorem stored_status_Int32 c :
  reachable c →
  ∀ id r, LeaveRequests c !! id = Some r →
    - 2 ^ 31 ≤ LeaveRequest.Status r ≤ 2 ^ 31 - 1.
Proof.
  intros [employees Hsteps] id r Hr.
  assert (Hc : statuses_Int32 c).
  { apply (steps_effect statuses_Int32 _ _ effect_statuses_Int32 Hsteps).
    intros id' r' Hid. cbn in Hid. by rewrite lookup_empty in Hid. }
  exact (Hc id r Hr).
Qed.

Lemma stored_status_Int32_witness :
  - 2 ^ 31 ≤ LeaveRequest.Status (created overlapping with_long) ≤ 2 ^ 31 - 1.
Proof.
  apply (stored_status_Int32 with_two reachable_with_two 2). reflexivity.
Defined.

(** X4: no sequence of create, set-status, cancel and delete calls changes
    the Employees table. *)
Theorem Employees_never_change c c' :
  rtc step c c' → Employees c' = Employees c.
Proof.
  intros Hsteps.
  apply (steps_effect (λ c1, Employees c1 = Employees c) c c'); [|done..].
  intros c1 c2 H12 <-. by apply effect_Employees.
Qed.

Lemma Employees_never_change_witness : Employees with_two = Employees seeded.
Proof.
  apply Employees_never_change. eapply rtc_r.
  - apply rtc_once. apply (step_create seeded (Date 100) long_leave).
  - apply (step_create with_long (Date 100) overlapping).
Defined.

(** X5: once a request of a reachable database has been cancelled by its
    owner or deleted by a manager, no later sequence of calls stores a
    request under its id again. *)
Theorem removed_id_not_reused id actorId c c1 c2 :
  reachable c →
  CancelLeaveRequest id actorId c = (NoContent, c1)
  ∨ PermanentlyDeleteRequest id actorId c = (NoContent, c1) →
  rtc step c1 c2 →
  LeaveRequests c2 !! id = None.
Proof.
  intros Hc Hremoved Hsteps.
  assert (∃ request, LeaveRequests c !! id = Some request ∧ c1 = Remove id c)
    as (request & Hrequest & ->).
  { destruct Hremoved as [H|H].
    - apply CancelLeaveRequest_NoContent in H as (r & ? & _ & _ & ?). eauto.
    - apply PermanentlyDeleteRequest_NoContent in H as (m & r & _ & _ & ? & ?). eauto. }
  destruct (reachable_keyed c Hc) as [_ Hkeys]. destruct (Hkeys id request Hrequest).
  apply (steps_effect (retired id) _ _ (effect_retired id) Hsteps).
  split; cbn [Remove with_LeaveRequests LeaveRequestsSeq LeaveRequests]; [lia|].
  apply lookup_delete_eq.
Qed.

Lemma removed_id_not_reused_witness :
  LeaveRequests
    (CreateLeaveRequest (Date 100) overlapping (CancelLeaveRequest 2 1 with_two).2).2 !! 2
  = None.
Proof.
  apply (removed_id_not_reused 2 1 with_two (CancelLeaveRequest 2 1 with_two).2).
  - apply reachable_with_two.
  - left. reflexivity.
  - apply rtc_once, step_create.
Defined.

(** *** Reading one request *)

Lemma GetLeaveRequest_keyed id c :
  keyed_by_Id c →
  GetLeaveRequest id c =
    match LeaveRequests c !! id with
    | Some request => Value request
    | None => Result (NotFound None)
    end.
Proof.
  intros [_ Hkeys]. unfold GetLeaveRequest.
  destruct (List.find _ _) as [x|] eqn:Hfind.
  - apply find_some in Hfind as [Hin Hx]. apply Z.eqb_eq in Hx.
    apply list_elem_of_In, elem_of_rows in Hin as [k Hk].
    destruct (Hkeys k x Hk) as [Hid _]. replace k with id in Hk by lia. by rewrite Hk.
  - destruct (LeaveRequests c !! id) as [r|] eqn:Hr; [|done].
    assert (Hin : r ∈ rows (LeaveRequests c)) by (apply elem_of_rows; eauto).
    apply list_elem_of_In in Hin.
    pose proof (find_none _ _ Hfind r Hin) as Hno. cbn in Hno.
    destruct (Hkeys id r Hr) as [Hid _]. apply Z.eqb_neq in Hno. done.
Qed.

(** X6: in a reachable database GetLeaveRequest returns a request exactly
    when it is the one stored under the id asked for, and NotFound exactly
    when no request is stored under that id. *)
Theorem GetLeaveRequest_found id c :
  reachable c →
  (∀ r, GetLeaveRequest id c = Value r ↔ LeaveRequests c !! id = Some r)
  ∧ (GetLeaveRequest id c = Result (NotFound None) ↔ LeaveRequests c !! id = None).
Proof.
  intros Hc. rewrite (GetLeaveRequest_keyed id c (reachable_keyed c Hc)).
  destruct (LeaveRequests c !! id) as [request|]; split; try intros r; split;
    intros H; by simplify_eq.
Qed.

Lemma GetLeaveRequest_found_witness :
  GetLeaveRequest 2 with_two = Value (created overlapping with_long)
  ∧ GetLeaveRequest 7 with_two = Result (NotFound None).
Proof.
  split.
  - apply (GetLeaveRequest_found 2 with_two reachable_with_two). reflexivity.
  - apply (GetLeaveRequest_found 7 with_two reachable_with_two). reflexivity.
Defined.

(** *** Creation, further *)

(** X7: in a reachable database a successful create stores the new request
    under an id that was not in use (the next key of the sequence), keeps
    every request already stored, makes the table one row larger, and the
    new request can be read back by its id. *)
Theorem CreateLeaveRequest_fresh Today dto c r c' :
  reachable c →
  CreateLeaveRequest Today dto c = (CreatedAtAction r, c') →
  LeaveRequest.Id r = LeaveRequestsSeq c + 1
  ∧ LeaveRequests c !! LeaveRequest.Id r = None
  ∧ (∀ id r0, LeaveRequests c !! id = Some r0 → LeaveRequests c' !! id = Some r0)
  ∧ size (LeaveRequests c') = S (size (LeaveRequests c))
  ∧ GetLeaveRequest (LeaveRequest.Id r) c' = Value r.
Proof.
  intros Hc Hcreate.
  assert (Hc' : reachable c').
  { apply (reachable_step c c' Hc). replace c' with (CreateLeaveRequest Today dto c).2
      by (by rewrite Hcreate). apply step_create. }
  apply CreateLeaveRequest_inv in Hcreate as (_ & _ & _ & _ & -> & ->).
  destruct (reachable_keyed c Hc) as [_ Hkeys].
  assert (Hfresh : LeaveRequests c !! (LeaveRequestsSeq c + 1) = None).
  { destruct (LeaveRequests c !! (LeaveRequestsSeq c + 1)) as [r0|] eqn:Hr0; [|done].
    destruct (Hkeys _ _ Hr0). lia. }
  cbn [created LeaveRequest.Id LeaveRequests].
  split; [done|]. split; [done|]. split; [|split].
  - intros id r0 Hr0. rewrite lookup_insert_ne; [done|]. intros <-. congruence.
  - by apply map_size_insert_None.
  - rewrite (GetLeaveRequest_keyed _ _ (reachable_keyed _ Hc')).
    cbn [LeaveRequests]. by rewrite lookup_insert_eq.
Qed.

Lemma CreateLeaveRequest_fresh_witness :
  LeaveRequests with_long !! 2 = None
  ∧ GetLeaveRequest 2 with_two = Value (created overlapping with_long).
Proof.
  destruct (CreateLeaveRequest_fresh (Date 100) overlapping with_long
              (created overlapping with_long) with_two reachable_with_long)
    as (_ & Hfresh & _ & _ & Hget).
  - reflexivity.
  - split; [exact Hfresh|exact Hget].
Defined.

(** X8: CreateLeaveRequest checks in a fixed order.  An unknown employee
    gives NotFound "Employee not found" whatever the dates; for a known
    employee a start at or after the end gives InvalidRange even when the
    start is in the past; a start before today gives PastDate even when an
    approved request overlaps.  None of these calls changes the database. *)
Theorem CreateLeaveRequest_validation_order Today dto c :
  (Employees c !! CreateLeaveRequestDto.EmployeeId dto = None →
   CreateLeaveRequest Today dto c = (EmployeeNotFound, c))
  ∧ (is_Some (Employees c !! CreateLeaveRequestDto.EmployeeId dto) →
     CreateLeaveRequestDto.StartDate dto >= CreateLeaveRequestDto.EndDate dto →
     CreateLeaveRequest Today dto c = (InvalidRange, c))
  ∧ (is_Some (Employees c !! CreateLeaveRequestDto.EmployeeId dto) →
     CreateLeaveRequestDto.StartDate dto < CreateLeaveRequestDto.EndDate dto →
     CreateLeaveRequestDto.StartDate dto < Today →
     CreateLeaveRequest Today dto c = (PastDate, c)).
Proof.
  split; [|split].
  - intros Hnone. unfold CreateLeaveRequest. by rewrite Hnone.
  - intros [e He] Hrange. create_cases; try congruence; try lia. reflexivity.
  - intros [e He] Hrange Hpast. create_cases; try congruence; try lia. reflexivity.
Qed.

Lemma CreateLeaveRequest_validation_order_witness :
  CreateLeaveRequest (Date 100)
    (CreateLeaveRequestDto.mk 9 (Date 90) (Date 80) "nobody") with_long_approved
  = (EmployeeNotFound, with_long_approved)
  ∧ CreateLeaveRequest (Date 100)
      (CreateLeaveRequestDto.mk 1 (Date 90) (Date 80) "backwards") with_long_approved
    = (InvalidRange, with_long_approved)
  ∧ CreateLeaveRequest (Date 120) overlapping with_long_approved
    = (PastDate, with_long_approved).
Proof.
  split; [|split].
  - apply (CreateLeaveRequest_validation_order (Date 100)
             (CreateLeaveRequestDto.mk 9 (Date 90) (Date 80) "nobody")). reflexivity.
  - apply (CreateLeaveRequest_validation_order (Date 100)
             (CreateLeaveRequestDto.mk 1 (Date 90) (Date 80) "backwards")).
    + exists alex. reflexivity.
    + vm_compute. discriminate.
  - apply (CreateLeaveRequest_validation_order (Date 120) overlapping).
    + exists alex. reflexivity.
    + reflexivity.
    + reflexivity.
Defined.

(** X9: CreateLeaveRequest has five outcomes: NotFound for the employee,
    InvalidRange, PastDate, OverlapConflict, or Created with the stored
    request; unless it answers Created, the database it leaves is the one
    it found, and a created request is Pending or Rejected, never
    Approved. *)
Theorem CreateLeaveRequest_outcomes Today dto c :
  ((CreateLeaveRequest Today dto c).1 = EmployeeNotFound
   ∨ (CreateLeaveRequest Today dto c).1 = InvalidRange
   ∨ (CreateLeaveRequest Today dto c).1 = PastDate
   ∨ (CreateLeaveRequest Today dto c).1 = OverlapConflict
   ∨ ∃ r, (CreateLeaveRequest Today dto c).1 = CreatedAtAction r
          ∧ (LeaveRequest.Status r = LeaveStatus.Pending
             ∨ LeaveRequest.Status r = LeaveStatus.Rejected))
  ∧ ((∀ r, (CreateLeaveRequest Today dto c).1 ≠ CreatedAtAction r) →
     (CreateLeaveRequest Today dto c).2 = c).
Proof.
  split; [|apply CreateLeaveRequest_failure].
  create_cases; auto 6.
  do 4 right. eexists. split; [reflexivity|].
  cbn [LeaveRequest.set_Id LeaveRequest.Status]. destruct (Qgtb _ _); auto.
Qed.

Lemma CreateLeaveRequest_outcomes_witness :
  (CreateLeaveRequest (Date 100) overlapping with_long_approved).2 = with_long_approved.
Proof.
  apply (CreateLeaveRequest_outcomes (Date 100) overlapping with_long_approved).
  intros r. vm_compute. discriminate.
Defined.

(** *** Deleting *)

(** X10: PermanentlyDeleteRequest answers Unauthorized exactly when the
    actor is no employee or not a manager; for a manager it answers
    NotFound when no request is stored under the id, and otherwise removes
    the request whatever its status and leaves every other request and the
    employees as they were.  Unless it answers NoContent the database is
    unchanged. *)
Theorem PermanentlyDeleteRequest_outcomes id managerId c :
  let no_manager :=
    Employees c !! managerId = None
    ∨ ∃ e, Employees c !! managerId = Some e ∧ Employee.Role e ≠ Role.Manager in
  ((PermanentlyDeleteRequest id managerId c).1 = Unauthorized ↔ no_manager)
  ∧ (¬ no_manager → LeaveRequests c !! id = None →
     PermanentlyDeleteRequest id managerId c = (NotFound None, c))
  ∧ (¬ no_manager → ∀ r, LeaveRequests c !! id = Some r →
     let c' := (PermanentlyDeleteRequest id managerId c).2 in
     (PermanentlyDeleteRequest id managerId c).1 = NoContent
     ∧ LeaveRequests c' !! id = None
     ∧ (∀ id', id' ≠ id → LeaveRequests c' !! id' = LeaveRequests c !! id')
     ∧ Employees c' = Employees c)
  ∧ ((PermanentlyDeleteRequest id managerId c).1 ≠ NoContent →
     (PermanentlyDeleteRequest id managerId c).2 = c).
Proof.
  intros no_manager. subst no_manager. update_cases.
  - split; [|split; [|split]]; try done.
    + split; [|done]. intros _. right. eauto.
    + intros Hno. exfalso. apply Hno. right. eauto.
    + intros Hno. exfalso. apply Hno. right. eauto.
  - split; [|split; [|split]]; try done.
    + split; [done|]. intros [?|(e & [= <-] & ?)]; done.
    + intros _ r _. cbn [Remove with_LeaveRequests LeaveRequests Employees].
      split; [done|]. split; [apply lookup_delete_eq|].
      split; [|done]. intros id' Hne. by apply lookup_delete_ne.
  - split; [|split; [|split]]; try done.
    split; [done|]. intros [?|(e & [= <-] & ?)]; done.
  - split; [|split; [|split]]; try done.
    + split; [|done]. intros _. by left.
    + intros Hno. exfalso. apply Hno. by left.
    + intros Hno. exfalso. apply Hno. by left.
Qed.

Lemma PermanentlyDeleteRequest_outcomes_witness :
  (PermanentlyDeleteRequest 1 1 with_long_approved).1 = Unauthorized
  ∧ PermanentlyDeleteRequest 7 2 with_long_approved = (NotFound None, with_long_approved)
  ∧ ((PermanentlyDeleteRequest 1 2 with_long_approved).1 = NoContent
     ∧ LeaveRequests (PermanentlyDeleteRequest 1 2 with_long_approved).2 !! 1 = None).
Proof.
  assert (Hmorgan : ¬ (Employees with_long_approved !! 2 = None
            ∨ ∃ e, Employees with_long_approved !! 2 = Some e
                   ∧ Employee.Role e ≠ Role.Manager)).
  { intros [H|(e & H & Hrole)]; [discriminate|]. vm_compute in H.
    injection H as <-. by apply Hrole. }
  split; [|split].
  - apply (PermanentlyDeleteRequest_outcomes 1 1 with_long_approved).
    right. exists alex. split; [reflexivity|discriminate].
  - apply (PermanentlyDeleteRequest_outcomes 7 2 with_long_approved); [exact Hmorgan|].
    reflexivity.
  - destruct (PermanentlyDeleteRequest_outcomes 1 2 with_long_approved)
      as (_ & _ & Hdel & _).
    destruct (Hdel Hmorgan
                (LeaveRequest.set_Status LeaveStatus.Approved (created long_leave seeded)))
      as (Hres & Hgone & _); [reflexivity|].
    split; [exact Hres|exact Hgone].
Defined.

(** *** Setting the status, further *)

Lemma UpdateLeaveStatus_NoContent id managerId statusString c c' :
  UpdateLeaveStatus id managerId statusString c = (NoContent, c') →
  ∃ manager request status,
    Employees c !! managerId = Some manager
    ∧ Employee.Role manager = Role.Manager
    ∧ LeaveRequests c !! id = Some request
    ∧ Enum.TryParse LeaveStatus.Names statusString true = Some status
    ∧ c' = with_LeaveRequests
             (<[id := LeaveRequest.set_Status status request]> (LeaveRequests c)) c.
Proof.
  update_cases; try discriminate.
  assert (Hm : Employee.Role manager = Role.Manager)
    by (by destruct (decide (Employee.Role manager = Role.Manager))).
  destruct (Enum.TryParse _ _ _) as [status|]; [|discriminate].
  assert (Hsame : ∀ b : bool,
    (if b then LeaveRequest.set_Status status request
     else LeaveRequest.set_Status status request)
    = LeaveRequest.set_Status status request) by (by intros []).
  rewrite Hsame. intros [= <-]. by exists manager, request, status.
Qed.

(** X11: for a manager, UpdateLeaveStatus looks the request up before it
    reads the status text: an id without a request gives NotFound even when
    the text is not a status, and a stored request with a text the parser
    refuses gives InvalidStatus.  Unless the answer is NoContent the
    database is unchanged. *)
Theorem UpdateLeaveStatus_errors id managerId statusString c manager :
  Employees c !! managerId = Some manager →
  Employee.Role manager = Role.Manager →
  (LeaveRequests c !! id = None →
   UpdateLeaveStatus id managerId statusString c = (NotFound None, c))
  ∧ (is_Some (LeaveRequests c !! id) →
     Enum.TryParse LeaveStatus.Names statusString true = None →
     UpdateLeaveStatus id managerId statusString c = (InvalidStatus, c))
  ∧ ((UpdateLeaveStatus id managerId statusString c).1 ≠ NoContent →
     (UpdateLeaveStatus id managerId statusString c).2 = c).
Proof.
  intros Hm Hrole. split; [|split].
  - intros Hnone. unfold UpdateLeaveStatus. rewrite Hm, Hnone.
    by destruct (decide (Employee.Role manager ≠ Role.Manager)).
  - intros [request Hrequest] Hparse.
    by rewrite (UpdateLeaveStatus_authorized _ _ _ _ _ _ Hm Hrole Hrequest), Hparse.
  - destruct (LeaveRequests c !! id) as [request|] eqn:Hrequest.
    + rewrite (UpdateLeaveStatus_authorized _ _ _ _ _ _ Hm Hrole Hrequest).
      by destruct (Enum.TryParse _ _ _).
    + unfold UpdateLeaveStatus. rewrite Hm, Hrequest.
      by destruct (decide (Employee.Role manager ≠ Role.Manager)).
Qed.

Lemma UpdateLeaveStatus_errors_witness :
  UpdateLeaveStatus 7 2 "granted" with_long = (NotFound None, with_long)
  ∧ UpdateLeaveStatus 1 2 "granted" with_long = (InvalidStatus, with_long).
Proof.
  split.
  - apply (UpdateLeaveStatus_errors 7 2 "granted" with_long morgan); reflexivity.
  - apply (UpdateLeaveStatus_errors 1 2 "granted" with_long morgan); try reflexivity.
    by eexists.
Defined.

(** X12: sending the same status update twice is the same as sending it
    once: the second call gives the same answer and leaves the database the
    first call left. *)
Theorem UpdateLeaveStatus_twice id managerId statusString c :
  UpdateLeaveStatus id managerId statusString
    (UpdateLeaveStatus id managerId statusString c).2
  = UpdateLeaveStatus id managerId statusString c.
Proof.
  assert (Hfixed : ∀ res,
    UpdateLeaveStatus id managerId statusString c = (res, c) →
    UpdateLeaveStatus id managerId statusString
      (UpdateLeaveStatus id managerId statusString c).2
    = UpdateLeaveStatus id managerId statusString c).
  { intros res H. rewrite H. exact H. }
  destruct (Employees c !! managerId) as [manager|] eqn:Hm.
  2: { apply (Hfixed Unauthorized). unfold UpdateLeaveStatus. by rewrite Hm. }
  destruct (decide (Employee.Role manager = Role.Manager)) as [Hrole|Hrole].
  2: { apply (Hfixed Unauthorized). unfold UpdateLeaveStatus. rewrite Hm.
       by destruct (decide (Employee.Role manager ≠ Role.Manager)). }
  destruct (LeaveRequests c !! id) as [request|] eqn:Hrequest.
  2: { apply (Hfixed (NotFound None)). unfold UpdateLeaveStatus. rewrite Hm, Hrequest.
       by destruct (decide (Employee.Role manager ≠ Role.Manager)). }
  rewrite (UpdateLeaveStatus_authorized id managerId statusString c manager request)
    by done.
  destruct (Enum.TryParse LeaveStatus.Names statusString true) as [status|] eqn:Hparse.
  - cbn [snd].
    rewrite (UpdateLeaveStatus_authorized id managerId statusString _ manager
               (LeaveRequest.set_Status status request)); try done.
    + rewrite Hparse. cbn [with_LeaveRequests LeaveRequests Employees LeaveRequestsSeq].
      by rewrite insert_insert_eq.
    + cbn [with_LeaveRequests LeaveRequests]. apply lookup_insert_eq.
  - cbn [snd].
    by rewrite (UpdateLeaveStatus_authorized id managerId statusString c manager request),
      Hparse.
Qed.

(** *** How the calls compose *)

(** X13: once a manager has set a request to a status other than Pending,
    the owner can no longer cancel it: CancelLeaveRequest answers with
    InvalidState and changes nothing. *)
Theorem CancelLeaveRequest_after_decision id managerId statusString c c1 request status :
  UpdateLeaveStatus id managerId statusString c = (NoContent, c1) →
  LeaveRequests c !! id = Some request →
  Enum.TryParse LeaveStatus.Names statusString true = Some status →
  status ≠ LeaveStatus.Pending →
  CancelLeaveRequest id (LeaveRequest.EmployeeId request) c1 = (InvalidState, c1).
Proof.
  intros Hupdate Hrequest Hparse Hstatus.
  apply UpdateLeaveStatus_NoContent in Hupdate
    as (manager & request' & status' & _ & _ & Hrequest' & Hparse' & ->).
  rewrite Hrequest in Hrequest'. injection Hrequest' as <-.
  rewrite Hparse in Hparse'. injection Hparse' as <-.
  unfold CancelLeaveRequest.
  cbn [with_LeaveRequests LeaveRequests]. rewrite lookup_insert_eq.
  cbn [LeaveRequest.set_Status LeaveRequest.EmployeeId LeaveRequest.Status].
  by repeat case_decide.
Qed.

Lemma CancelLeaveRequest_after_decision_witness :
  CancelLeaveRequest 2 1 (UpdateLeaveStatus 2 2 "Approved" with_two).2
  = (InvalidState, (UpdateLeaveStatus 2 2 "Approved" with_two).2).
Proof.
  apply (CancelLeaveRequest_after_decision 2 2 "Approved" with_two
           (UpdateLeaveStatus 2 2 "Approved" with_two).2
           (created overlapping with_long) LeaveStatus.Approved).
  - reflexivity.
  - reflexivity.
  - reflexivity.
  - discriminate.
Defined.



(** X15: in a reachable database, a request that was created Pending can
    be cancelled by its owner at once, and the table of requests is then
    again the one before the create (the id stays spent); a request that
    was auto-rejected on creation cannot be cancelled by its owner
    (InvalidState). *)
Theorem CancelLeaveRequest_after_create Today dto c r c1 :
  reachable c →
  CreateLeaveRequest Today dto c = (CreatedAtAction r, c1) →
  let owner := CreateLeaveRequestDto.EmployeeId dto in
  (LeaveRequest.Status r = LeaveStatus.Pending →
   (CancelLeaveRequest (LeaveRequest.Id r) owner c1).1 = NoContent
   ∧ LeaveRequests (CancelLeaveRequest (LeaveRequest.Id r) owner c1).2 = LeaveRequests c
   ∧ LeaveRequestsSeq (CancelLeaveRequest (LeaveRequest.Id r) owner c1).2
     = LeaveRequestsSeq c + 1)
  ∧ (LeaveRequest.Status r = LeaveStatus.Rejected →
     CancelLeaveRequest (LeaveRequest.Id r) owner c1 = (InvalidState, c1)).
Proof.
  intros Hc Hcreate owner. subst owner.
  apply CreateLeaveRequest_inv in Hcreate as (_ & _ & _ & _ & -> & ->).
  destruct (reachable_keyed c Hc) as [_ Hkeys].
  assert (Hfresh : LeaveRequests c !! (LeaveRequestsSeq c + 1) = None).
  { destruct (LeaveRequests c !! (LeaveRequestsSeq c + 1)) as [r0|] eqn:Hr0; [|done].
    destruct (Hkeys _ _ Hr0). lia. }
  unfold CancelLeaveRequest. cbn [LeaveRequests].
  change (LeaveRequest.Id (created dto c)) with (LeaveRequestsSeq c + 1).
  rewrite lookup_insert_eq.
  change (LeaveRequest.EmployeeId (created dto c))
    with (CreateLeaveRequestDto.EmployeeId dto).
  split; intros Hstatus; rewrite Hstatus; repeat case_decide; try done.
  cbn [fst snd Remove with_LeaveRequests LeaveRequests LeaveRequestsSeq].
  split; [done|]. split; [|done].
  rewrite delete_insert_eq. by apply delete_id.
Qed.

Lemma CancelLeaveRequest_after_create_witness :
  LeaveRequests (CancelLeaveRequest 2 1 with_two).2 = LeaveRequests with_long
  ∧ CancelLeaveRequest 1 1 with_long = (InvalidState, with_long).
Proof.
  split.
  - destruct (CancelLeaveRequest_after_create (Date 100) overlapping with_long
                (created overlapping with_long) with_two reachable_with_long)
      as [Hpending _]; [reflexivity|].
    apply Hpending. reflexivity.
  - destruct (CancelLeaveRequest_after_create (Date 100) long_leave seeded
                (created long_leave seeded) with_long)
      as [_ Hrejected].
    + exists (Employees seeded). apply rtc_refl.
    + reflexivity.
    + apply Hrejected. reflexivity.
Defined.



(** *** Status texts, further *)

Lemma ToUpperOrdinal_inv c u :
  Enum.ToUpperOrdinal c = u → c = u ∨ c = ascii_of_N (N_of_ascii u + 32).
Proof.
  intros <-. destruct c as [[] [] [] [] [] [] [] []]; vm_compute; auto.
Qed.

Ltac split_letters H :=
  repeat match type of H with
         | List.map _ ?l = _ :: _ =>
             let c := fresh "c" in
             let Hc := fresh "Hc" in
             destruct l as [|c l]; [discriminate H|];
             cbn [List.map] in H; injection H as Hc H;
             apply ToUpperOrdinal_inv in Hc
         | List.map _ ?l = [] => destruct l; [clear H|discriminate H]
         end.

Ltac any_case :=
  repeat match goal with
         | H : _ = _ ∨ _ = _ |- _ => destruct H as [-> | ->]
         end; vm_compute; reflexivity.

(** X17: the status text is read without regard to case: every text whose
    upper-cased letters spell PENDING, APPROVED or REJECTED is accepted
    and parses to the member of that name. *)
Theorem TryParse_any_case statusString :
  (upper statusString = list_ascii_of_string "PENDING" →
   Enum.TryParse LeaveStatus.Names statusString true = Some LeaveStatus.Pending)
  ∧ (upper statusString = list_ascii_of_string "APPROVED" →
     Enum.TryParse LeaveStatus.Names statusString true = Some LeaveStatus.Approved)
  ∧ (upper statusString = list_ascii_of_string "REJECTED" →
     Enum.TryParse LeaveStatus.Names statusString true = Some LeaveStatus.Rejected).
Proof.
  unfold upper, Enum.TryParse.
  remember (list_ascii_of_string statusString) as l eqn:Hl. clear Hl.
  split; [|split]; intros H; cbn [list_ascii_of_string] in H; split_letters H; any_case.
Qed.

Lemma TryParse_any_case_witness :
  Enum.TryParse LeaveStatus.Names "aPProved" true = Some LeaveStatus.Approved.
Proof.
  apply (TryParse_any_case "aPProved"). reflexivity.
Defined.

(** *** Seeding *)






(** *** The page and the seeded database *)





(** X20: the name the page shows for a numeric status is the name the
    server parses back to that status, for the three members; every other
    number is shown as "Pending". *)
Theorem getStatusString_round_trip status :
  (0 ≤ status ≤ 2 →
   Enum.TryParse LeaveStatus.Names (App.getStatusString status) true = Some status)
  ∧ (¬ 0 ≤ status ≤ 2 → App.getStatusString status = "Pending").
Proof.
  split.
  - intros Hmember.
    assert (status = 0 ∨ status = 1 ∨ status = 2) as [-> | [-> | ->]] by lia;
      reflexivity.
  - intros Hother. destruct status as [|p|p]; [lia| |reflexivity].
    destruct p as [[p|p|]|[p|p|]|]; try reflexivity; lia.
Qed.

Lemma getStatusString_round_trip_witness :
  Enum.TryParse LeaveStatus.Names (App.getStatusString 2) true = Some 2
  ∧ App.getStatusString 7 = "Pending".
Proof.
  split.
  - apply (getStatusString_round_trip 2). lia.
  - apply (getStatusString_round_trip 7). lia.
Defined.

(** *** The form *)



(** *** Listing after a create *)

(** X22: after a successful create the new request is in the list a
    caller without id gets and in the list its owner gets, and in no list
    of another caller whose role is Employee. *)
Theorem GetLeaveRequests_after_create Today dto c r c1 :
  CreateLeaveRequest Today dto c = (CreatedAtAction r, c1) →
  (∃ l, GetLeaveRequests None c1 = Ok l ∧ r ∈ l)
  ∧ (∃ l, GetLeaveRequests (Some (CreateLeaveRequestDto.EmployeeId dto)) c1 = Ok l ∧ r ∈ l)
  ∧ (∀ id e l, id ≠ CreateLeaveRequestDto.EmployeeId dto →
       Employees c1 !! id = Some e → Employee.Role e = Role.Employee →
       GetLeaveRequests (Some id) c1 = Ok l → r ∉ l).
Proof.
  intros Hcreate.
  apply CreateLeaveRequest_inv in Hcreate as ([owner Howner] & _ & _ & _ & -> & ->).
  set (c1 := mkContext _ _ _).
  assert (Hin : created dto c ∈ rows (LeaveRequests c1)).
  { apply elem_of_rows. exists (LeaveRequestsSeq c + 1). apply lookup_insert_eq. }
  split; [|split].
  - eexists. split; [reflexivity|]. by rewrite OrderByDescending_StartDate_Permutation.
  - unfold GetLeaveRequests. change (Employees c1) with (Employees c). rewrite Howner.
    destruct (decide (Employee.Role owner = Role.Manager)).
    + eexists. split; [reflexivity|]. by rewrite OrderByDescending_StartDate_Permutation.
    + eexists. split; [reflexivity|].
      rewrite OrderByDescending_StartDate_Permutation, Where_EmployeeId.
      by apply list_elem_of_filter.
  - intros id e l Hother He Hrole. unfold GetLeaveRequests. rewrite He.
    destruct (decide (Employee.Role e = Role.Manager)) as [Hm|_]; [congruence|].
    intros [= <-].
    rewrite OrderByDescending_StartDate_Permutation, Where_EmployeeId.
    rewrite list_elem_of_filter. intros [Hid _]. cbn in Hid. congruence.
Qed.

Lemma GetLeaveRequests_after_create_witness :
  ∃ l, GetLeaveRequests (Some 1) with_two = Ok l ∧ created overlapping with_long ∈ l.
Proof.
  apply (GetLeaveRequests_after_create (Date 100) overlapping with_long
           (created overlapping with_long) with_two).
  reflexivity.
Defined.

(** X23: the list a caller without id gets has one entry for each stored
    request; for a database without requests it is the empty list, also
    for a known caller id (no error is raised for an empty result). *)
Theorem GetLeaveRequests_counts c :
  (∃ l, GetLeaveRequests None c = Ok l ∧ length l = size (LeaveRequests c))
  ∧ (LeaveRequests c = ∅ →
     GetLeaveRequests None c = Ok []
     ∧ ∀ id, is_Some (Employees c !! id) → GetLeaveRequests (Some id) c = Ok []).
Proof.
  split.
  - eexists. split; [reflexivity|].
    rewrite OrderByDescending_StartDate_Permutation. unfold rows.
    by rewrite length_fmap, length_map_to_list.
  - intros Hempty. unfold GetLeaveRequests, rows. rewrite Hempty, map_to_list_empty.
    split; [reflexivity|]. intros id [e ->]. by destruct (decide _).
Qed.

Lemma GetLeaveRequests_counts_witness :
  GetLeaveRequests None seeded = Ok [] ∧ GetLeaveRequests (Some 1) seeded = Ok [].
Proof.
  destruct (proj2 (GetLeaveRequests_counts seeded)) as [Hall Hown]; [reflexivity|].
  split; [exact Hall|]. apply Hown. exists alex. reflexivity.
Defined.

(** *** Who can approve *)

(** X24: a request is Approved only through a manager's status update:
    whatever create, cancel or delete leave stored as Approved was stored
    so before the call, and a status update by an actor who is no manager
    changes nothing. *)
Theorem approval_needs_manager c :
  (∀ Today dto id r, LeaveRequests (CreateLeaveRequest Today dto c).2 !! id = Some r →
     LeaveRequest.Status r = LeaveStatus.Approved → LeaveRequests c !! id = Some r)
  ∧ (∀ id0 employeeId id r,
       LeaveRequests (CancelLeaveRequest id0 employeeId c).2 !! id = Some r →
       LeaveRequest.Status r = LeaveStatus.Approved → LeaveRequests c !! id = Some r)
  ∧ (∀ id0 managerId id r,
       LeaveRequests (PermanentlyDeleteRequest id0 managerId c).2 !! id = Some r →
       LeaveRequest.Status r = LeaveStatus.Approved → LeaveRequests c !! id = Some r)
  ∧ (∀ id0 actorId statusString,
       (∀ e, Employees c !! actorId = Some e → Employee.Role e ≠ Role.Manager) →
       (UpdateLeaveStatus id0 actorId statusString c).2 = c).
Proof.
  split; [|split; [|split]].
  - intros Today dto id r. create_cases; try done.
    cbn [LeaveRequests]. rewrite lookup_insert. case_decide; [|done].
    intros [= <-]. cbn [LeaveRequest.set_Id LeaveRequest.Status].
    by destruct (Qgtb _ _).
  - intros id0 employeeId id r. unfold CancelLeaveRequest.
    destruct (LeaveRequests c !! id0); [|done]. repeat case_decide; try done.
    cbn [snd Remove with_LeaveRequests LeaveRequests].
    rewrite lookup_delete_Some. by intros [_ ?].
  - intros id0 managerId id r. unfold PermanentlyDeleteRequest.
    destruct (Employees c !! managerId); [|done]. case_decide; [done|].
    destruct (LeaveRequests c !! id0); [|done].
    cbn [snd Remove with_LeaveRequests LeaveRequests].
    rewrite lookup_delete_Some. by intros [_ ?].
  - intros id0 actorId statusString Hno. update_cases; try done.
    exfalso. apply (Hno manager eq_refl).
    by destruct (decide (Employee.Role manager = Role.Manager)).
Qed.

Lemma approval_needs_manager_witness :
  (UpdateLeaveStatus 1 1 "Approved" with_long).2 = with_long.
Proof.
  apply (approval_needs_manager with_long).
  intros e He. vm_compute in He. injection He as <-. discriminate.
Defined.
